(** * Lucid components: Legend, Panel, Points, Banner

    A shallow embedding of the rendering functions of the component
    library and the properties of their output.

    Conventions of the embedding:
    - a JavaScript value is a [jsval]; a number is an IEEE 754 double
      (binary64), with the arithmetic of the Standard Library's
      specification of floating-point numbers;
    - a props object is a finite map from attribute names to values;
    - a component function returns a typed record for the element tree it
      builds; an event handler is a function from the event to the
      [outcome] of running it (the callbacks it invoked, or a TypeError). *)

From Stdlib Require Import ZArith Lia Ascii String SpecFloat.
From stdpp Require Import base option list strings gmap pretty.

Set Warnings "-register-all".

Open Scope string_scope.
Open Scope list_scope.
Open Scope Z_scope.

(** ** JavaScript values *)

(** A number is a double: a signed zero, a signed infinity, NaN, or
    [(-1)^s * m * 2^e]. *)
Definition num := spec_float.

Definition prec : Z := 53.
Definition emax : Z := 1024.

Definition NaN : num := S754_nan.

(** The number an integer literal, an index or a length denotes: the
    double nearest to it. *)
Definition Fin (z : Z) : num := binary_normalize prec emax z 0 false.

Inductive jsval :=
  | VUndef
  | VNull
  | VBool (b : bool)
  | VNum (n : num)
  | VStr (s : string)
  | VDate (t : num)
  | VFun (name : string)
  | VNode (content : string).

(** ToBoolean. *)
Definition truthy (v : jsval) : bool :=
  match v with
  | VUndef | VNull => false
  | VBool b => b
  | VNum (S754_zero _) | VNum S754_nan => false
  | VNum _ => true
  | VStr s => negb (bool_decide (s = EmptyString))
  | VDate _ | VFun _ | VNode _ => true
  end.

(** [v === 'literal']. *)
Definition strict_eq_str (v : jsval) (lit : string) : bool :=
  match v with
  | VStr s => bool_decide (s = lit)
  | _ => false
  end.

(** [a || b]. *)
Definition js_or (a b : jsval) : jsval := if truthy a then a else b.

(** [o.k] on a props object: a missing attribute reads as undefined. *)
Definition get (k : string) (o : gmap string jsval) : jsval :=
  default VUndef (o !! k).

(** A destructuring default [{ k = d }]: applies to undefined only. *)
Definition dflt (v d : jsval) : jsval :=
  match v with VUndef => d | _ => v end.

(** ** Events and callbacks *)

Inductive event := MouseEvent (id : nat).

(** One invocation of a user callback: [f(index, { event, props })]. *)
Record call := Call {
  cb_name : string;
  cb_index : option nat;
  cb_props : gmap string jsval;
  cb_event : event
}.

Inductive outcome :=
  | Returns (calls : list call)
  | Throws.

(** [f(args)] for a value [f]: calling anything but a function raises. *)
Definition invoke (f : jsval) (index : option nat)
    (props : gmap string jsval) (ev : event) : outcome :=
  match f with
  | VFun name => Returns [Call name index props ev]
  | _ => Throws
  end.

(** ** Class names *)

Inductive cxarg :=
  | CStr (s : string)
  | CVal (v : jsval)
  | CDict (d : list (string * jsval)).

Fixpoint replace_amp (value s : string) : string :=
  match s with
  | EmptyString => EmptyString
  | String c r =>
      if bool_decide (c = "&"%char) then value +:+ replace_amp value r
      else String c (replace_amp value r)
  end.

Definition classNames_arg (a : cxarg) : list string :=
  match a with
  | CStr s => if bool_decide (s = EmptyString) then [] else [s]
  | CVal (VStr s) => if bool_decide (s = EmptyString) then [] else [s]
  | CVal _ => []
  | CDict d => (fst <$> filter (λ kv, truthy kv.2 = true) d)
  end.

Definition classNames (args : list cxarg) : list string :=
  args ≫= classNames_arg.

(** Modelled from the spec: the class-naming utility
    [lucidClassNames.bind] of util/style-helpers.  It "takes a base
    identifier plus a mapping of conditional modifier names to booleans
    plus an optional extra string, returns a single composed class-name
    string — deterministic, order-stable": the names whose condition holds,
    in argument order, joined by spaces, with [&] standing for the base
    identifier. *)
Definition lucidClassNames_bind (value : string) (args : list cxarg) : string :=
  replace_amp (replace_amp "lucid" value) (String.concat " " (classNames args)).

(** ** Children and slot extraction *)

Inductive component :=
  | LegendItem
  | PanelHeader
  | PanelFooter
  | Other (displayName : string).

Global Instance component_eq_dec : EqDecision component.
Proof. solve_decision. Defined.

Record element := Element {
  type : component;
  props : gmap string jsval
}.

Inductive node :=
  | Elem (e : element)
  | Text (s : string).

(** The children a parent receives: one node, or a sequence of children
    (empty, flat or nested). *)
Inductive ReactNode :=
  | Leaf (n : node)
  | Seq (cs : list ReactNode).

Fixpoint flatten (c : ReactNode) : list node :=
  match c with
  | Leaf n => [n]
  | Seq cs => concat (map flatten cs)
  end.

(** The element carries type tag [T]. *)
Definition carries (T : component) (n : node) : Prop :=
  match n with
  | Elem e => type e = T
  | Text _ => False
  end.

Global Instance carries_dec T n : Decision (carries T n).
Proof. destruct n; simpl; apply _. Defined.

Definition as_slot (T : component) (n : node) : option element :=
  match n with
  | Elem e => if decide (type e = T) then Some e else None
  | Text _ => None
  end.

(** Modelled from the spec: [findTypes] of util/component-types, the
    slot extraction.  "Input: the parent's raw children collection (may be
    a single value, an ordered sequence, or nested sequences) and a type
    tag identifying which marker type to extract"; "flattening must reach a
    single flat ordered sequence before filtering"; "Output: an ordered
    sequence of the matched elements, preserving relative order of
    occurrence; non-matching elements are dropped entirely". *)
Definition findTypes (c : ReactNode) (T : component) : list element :=
  omap (as_slot T) (flatten c).

(** Modelled from the spec: [omitProps] of util/component-types.
    "Pass-through attributes not matching any declared configuration option
    or slot type are forwarded to the root element." *)
Definition omitProps (passThroughs : gmap string jsval) (keys : list string)
    : gmap string jsval :=
  filter (λ kv, kv.1 ∉ keys) passThroughs.

(** What a slot marker renders: [(): null => null]. *)
Inductive dom :=
  | DText (s : string)
  | DComponent (displayName : string) (attrs : gmap string jsval).

Definition render_node (n : node) : list dom :=
  match n with
  | Text s => [DText s]
  | Elem e =>
      match type e with
      | LegendItem | PanelHeader | PanelFooter => []
      | Other name => [DComponent name (props e)]
      end
  end.

Definition render_children (c : ReactNode) : list dom :=
  flatten c ≫= render_node.

(** ** Legend *)

Module Legend.

Definition cx := lucidClassNames_bind "&-Legend".

Definition POINT_SIZE : Z := 12.
Definition LINE_WIDTH : Z := 22.

Record ILegendProps := {
  className : jsval;
  orient : jsval;
  hasBorders : jsval;
  isReversed : jsval;
  children : ReactNode;
  passThroughs : gmap string jsval
}.

(** [Legend.defaultProps], filled in for the attributes left undefined
    before the component function runs. *)
Definition defaultProps (p : ILegendProps) : ILegendProps :=
  {| className := className p;
     orient := dflt (orient p) (VStr "vertical");
     hasBorders := dflt (hasBorders p) (VBool true);
     isReversed := dflt (isReversed p) (VBool false);
     children := children p;
     passThroughs := passThroughs p |}.

Definition propTypes_keys : list string :=
  ["Item"; "className"; "orient"; "hasBorders"; "isReversed"].

(** The marks of the indicator, [<Point>] and [<Line>]. *)
Record PointEl := {
  pt_x : Z;
  pt_y : Z;
  pt_color : jsval;
  pt_kind : jsval
}.

Record LineEl := {
  ln_d : string;
  ln_color : jsval
}.

Record svg := {
  svg_className : string;
  width : Z;
  height : Z;
  svg_point : option PointEl;
  svg_line : option LineEl
}.

Record li := {
  key : nat;
  li_className : string;
  onClick : event → outcome;
  indicator : option svg;
  li_children : jsval
}.

Record ul := {
  ul_attrs : gmap string jsval;
  ul_className : string;
  ul_items : list li
}.

Definition handleItemClick (index : nat) (props : gmap string jsval)
    (ev : event) : outcome :=
  if negb (truthy (get "onClick" props)) then Returns []
  else invoke (get "onClick" props) (Some index) props ev.

(** The row of one item: the callback of [_.map(itemProps, ...)]. *)
Definition renderItem (itemProps : list (gmap string jsval))
    (hasSomeLines : bool) (index : nat) (item : gmap string jsval) : li :=
  let hasLine := get "hasLine" item in
  let hasPoint := get "hasPoint" item in
  let pointKind := dflt (get "pointKind" item) (VNum (Fin 1)) in
  let color := get "color" item in
  let children := get "children" item in
  let itemClass := get "className" item in
  {| key := index;
     li_className := cx [CVal itemClass; CStr "&-Item"];
     onClick := λ ev,
       match itemProps !! index with
       | Some props => handleItemClick index props ev
       | None => Throws
       end;
     indicator :=
       if truthy hasPoint || truthy hasLine then
         Some {| svg_className := cx [CStr "&-Item-indicator"];
                 width := if truthy hasLine || hasSomeLines
                          then LINE_WIDTH else POINT_SIZE;
                 height := POINT_SIZE;
                 svg_point :=
                   if truthy hasPoint then
                     Some {| pt_x := if truthy hasLine || hasSomeLines
                                     then LINE_WIDTH / 2 else POINT_SIZE / 2;
                             pt_y := POINT_SIZE / 2;
                             pt_color := color;
                             pt_kind := pointKind |}
                   else None;
                 svg_line :=
                   if truthy hasLine then
                     Some {| ln_d := "M0," +:+ pretty (POINT_SIZE / 2) +:+ " L"
                                     +:+ pretty LINE_WIDTH +:+ ","
                                     +:+ pretty (POINT_SIZE / 2);
                             ln_color := color |}
                   else None |}
       else None;
     li_children := children |}.

(** [_.map(findTypes(props, LegendItem), 'props')] *)
Definition itemProps (p : ILegendProps) : list (gmap string jsval) :=
  props <$> findTypes (children p) LegendItem.

Definition Legend (p : ILegendProps) : ul :=
  let isHorizontal := strict_eq_str (orient p) "horizontal" in
  let isVertical := strict_eq_str (orient p) "vertical" in
  let itemProps := itemProps p in
  let hasSomeLines :=
    isVertical && existsb (λ item, truthy (get "hasLine" item)) itemProps in
  {| ul_attrs := omitProps (passThroughs p) propTypes_keys;
     ul_className :=
       cx [CStr "&";
           CDict [("&-is-horizontal", VBool isHorizontal);
                  ("&-is-vertical", VBool isVertical);
                  ("&-has-borders", hasBorders p);
                  ("&-is-reversed", isReversed p)];
           CVal (className p)];
     ul_items := imap (renderItem itemProps hasSomeLines) itemProps |}.

End Legend.

(** ** Panel *)

Module Panel.

Definition cx := lucidClassNames_bind "&-Panel".

Record IPanelProps := {
  children : ReactNode;
  className : jsval;
  isGutterless : jsval;
  hasMargin : jsval;
  style : jsval;
  isScrollable : jsval;
  passThroughs : gmap string jsval
}.

Definition propTypes_keys : list string :=
  ["className"; "Header"; "Footer"; "children"; "isGutterless"; "hasMargin";
   "style"; "isScrollable"].

(** The root [<div>]; [C] is what the content region holds: the children
    as passed ([Panel]) or what they render to ([mount]). *)
Record div (C : Type) := {
  div_attrs : gmap string jsval;
  div_className : string;
  div_style : jsval;
  header : option (gmap string jsval);
  section_className : string;
  section_children : C;
  footer : option (gmap string jsval)
}.
Arguments div_attrs {C} _.
Arguments div_className {C} _.
Arguments div_style {C} _.
Arguments header {C} _.
Arguments section_className {C} _.
Arguments section_children {C} _.
Arguments footer {C} _.

(** [<header {...childProp} className={cx(name, childProp.className)} />] *)
Definition region (name : string) (childProp : gmap string jsval)
    : gmap string jsval :=
  <["className" := VStr (cx [CStr name; CVal (get "className" childProp)])]>
    childProp.

Definition Panel (p : IPanelProps) : div ReactNode :=
  let isGutterless := dflt (isGutterless p) (VBool false) in
  let hasMargin := dflt (hasMargin p) (VBool true) in
  let isScrollable := dflt (isScrollable p) (VBool true) in
  let headerChildProp := head (props <$> findTypes (children p) PanelHeader) in
  let footerChildProp := head (props <$> findTypes (children p) PanelFooter) in
  {| div_attrs := omitProps (passThroughs p) propTypes_keys;
     div_className :=
       cx [CStr "&"; CVal (className p);
           CDict [("&-is-not-gutterless", VBool (negb (truthy isGutterless)));
                  ("&-has-margin", hasMargin);
                  ("&-is-scrollable", isScrollable)]];
     div_style := style p;
     header := region "&-Header" <$> headerChildProp;
     section_className := cx [CStr "&-content"];
     section_children := children p;
     footer := region "&-Footer" <$> footerChildProp |}.

(** The rendered output: the children of the content region are rendered
    in turn, the slot markers among them to nothing. *)
Definition mount (d : div ReactNode) : div (list dom) :=
  {| div_attrs := div_attrs d;
     div_className := div_className d;
     div_style := div_style d;
     header := header d;
     section_className := section_className d;
     section_children := render_children (section_children d);
     footer := footer d |}.

End Panel.

(** ** Numbers *)

(** [a + b]: the sum, rounded to the nearest double, ties to even. *)
Definition num_add (a b : num) : num := SFadd prec emax a b.

(** [a > b]. *)
Definition num_gt (a b : num) : bool := SFltb b a.

(** [a % b]: the remainder of the truncating division, which a double
    holds exactly; its sign is the sign of the dividend. *)
Definition num_rem (a b : num) : num :=
  match a, b with
  | S754_nan, _ | _, S754_nan => NaN
  | S754_infinity _, _ => NaN
  | _, S754_zero _ => NaN
  | _, S754_infinity _ => a
  | S754_zero _, _ => a
  | S754_finite sa ma ea, S754_finite _ mb eb =>
      let e := Z.min ea eb in
      let r := (Zpos ma * 2 ^ (ea - e)) mod (Zpos mb * 2 ^ (eb - e)) in
      binary_normalize prec emax (cond_Zopp sa r) e sa
  end.

Definition isNaN (a : num) : bool :=
  match a with S754_nan => true | _ => false end.

(** The integer a number is, when it is one. *)
Definition to_integer (a : num) : option Z :=
  match a with
  | S754_zero _ => Some 0
  | S754_finite s m e =>
      if 0 <=? e then Some (cond_Zopp s (Zpos m * 2 ^ e))
      else if Zpos m mod 2 ^ (- e) =? 0
           then Some (cond_Zopp s (Zpos m / 2 ^ (- e)))
           else None
  | _ => None
  end.

(** [array[i]] for a number [i]: undefined unless [i] is an index of the
    array. *)
Definition at_index {A} (l : list A) (i : num) : option A :=
  match to_integer i with
  | Some z =>
      if (0 <=? z) && (z <? Z.of_nat (length l)) then l !! Z.to_nat z
      else None
  | None => None
  end.

(** ** Points *)

Module Points.

Definition cx := lucidClassNames_bind "&-Points".

(** What [isValidSeries] receives: an array (a stacked pair) or a plain
    value (a grouped cell). *)
Inductive series :=
  | SArr (l : list jsval)
  | SVal (v : jsval).

(** [_.isFinite] and [_.isDate]. *)
Definition isFinite (v : jsval) : bool :=
  match v with
  | VNum (S754_zero _) | VNum (S754_finite _ _ _) => true
  | _ => false
  end.

Definition isDate (v : jsval) : bool :=
  match v with VDate _ => true | _ => false end.

Definition isValidSeries (s : series) : bool :=
  match s with
  | SArr l =>
      let last := default VUndef (last l) in
      isFinite last || isDate last
  | SVal v => isFinite v || isDate v
  end.

(** A d3 scale: a domain and the map it induces from values to
    coordinates. *)
Record scale := {
  domain : list jsval;
  interpolate : list jsval → jsval → jsval
}.

Definition scale_call (s : scale) (v : jsval) : jsval :=
  interpolate s (domain s) v.

Definition set_domain (s : scale) (d : list jsval) : scale :=
  {| domain := d; interpolate := interpolate s |}.

Record IPointsProps := {
  className : jsval;
  data : list (gmap string jsval);
  palette : list string;
  colorMap : option (gmap string jsval);
  colorOffset : num;
  xField : string;
  hasStroke : jsval;
  xScale : scale;
  yFields : list string;
  yStackedMax : jsval;
  isStacked : jsval;
  yScale : scale;
  passThroughs : gmap string jsval
}.

Definition propTypes_keys : list string :=
  ["className"; "palette"; "colorMap"; "data"; "xScale"; "yScale"; "xField";
   "yFields"; "yStackedMax"; "colorOffset"; "hasStroke"; "isStacked"].

Record PointEl := {
  pt_key : string;
  pt_x : jsval;
  pt_y : jsval;
  pt_hasStroke : jsval;
  pt_kind : num;
  pt_color : jsval
}.

Record g := {
  g_attrs : gmap string jsval;
  g_className : string;
  g_marks : list (list (option PointEl))
}.

(** A render either returns its tree or raises. *)
Inductive result (A : Type) :=
  | Ok (a : A)
  | TypeError.
Arguments Ok {A} _.
Arguments TypeError {A}.

Global Instance result_bind : MBind result := λ A B k r,
  match r with
  | Ok a => k a
  | TypeError => TypeError
  end.

Global Instance result_ret : MRet result := λ A a, Ok a.

Fixpoint sequence {A} (l : list (result A)) : result (list A) :=
  match l with
  | [] => mret []
  | r :: rs => a ← r; rest ← sequence rs; mret (a :: rest)
  end.

(** The names every plain object inherits from [Object.prototype]. *)
Definition Object_prototype : list string :=
  ["constructor"; "__defineGetter__"; "__defineSetter__"; "hasOwnProperty";
   "__lookupGetter__"; "__lookupSetter__"; "isPrototypeOf";
   "propertyIsEnumerable"; "toString"; "valueOf"; "__proto__";
   "toLocaleString"].

(** [key in object] for a plain object with the own properties [o]. *)
Definition has_property (o : gmap string jsval) (key : string) : bool :=
  bool_decide (is_Some (o !! key)) || bool_decide (key ∈ Object_prototype).

(** [object[key]] for a plain object: the own property, or else the
    inherited member (a method, or the prototype itself), or undefined. *)
Definition property (o : gmap string jsval) (key : string) : jsval :=
  match o !! key with
  | Some v => v
  | None =>
      if bool_decide (key ∈ Object_prototype) then
        if bool_decide (key = "__proto__") then VNode "Object.prototype"
        else VFun ("Object.prototype." +:+ key)
      else VUndef
  end.

(** The pattern [/^\w*$/] of a plain property name: letters, digits and
    the underscore only. *)
Definition word_char (c : ascii) : bool :=
  let n := Z.of_N (N_of_ascii c) in
  ((48 <=? n) && (n <=? 57)) || ((65 <=? n) && (n <=? 90))
  || (n =? 95) || ((97 <=? n) && (n <=? 122)).

Fixpoint reIsPlainProp (s : string) : bool :=
  match s with
  | EmptyString => true
  | String c r => word_char c && reIsPlainProp r
  end.

(** What lodash makes of a string that is no plain property name: the
    test of its pattern for deep paths (a dot, a bracketed part), and the
    value read by following the path the string parses to, member by
    member, from the object. *)
Record lodash_paths := {
  reIsDeepProp : string → bool;
  baseGet : gmap string jsval → string → jsval
}.

Section WithToNumber.

(** The numeric value of a string, [+'12'], is left to the language. *)
Variable StringToNumber : string → num.

(** The deep paths of lodash are left to the library. *)
Variable paths : lodash_paths.

(** [+v]. *)
Definition ToNumber (v : jsval) : num :=
  match v with
  | VUndef => NaN
  | VNull => Fin 0
  | VBool b => Fin (if b then 1 else 0)
  | VNum n => n
  | VStr s => StringToNumber s
  | VDate t => t
  | VFun _ | VNode _ => NaN
  end.

(** [d3Shape.stack().keys(keys)(data)]: one series per key, one
    [[lower, upper]] pair per row, each series stacked on the one before
    (the default order and the default offset). *)
Definition stackValue (d : gmap string jsval) (key : string) : jsval :=
  get key d.

Definition stack_init (keys : list string) (data : list (gmap string jsval))
    : list (list (num * num)) :=
  map (λ key, map (λ d, (Fin 0, ToNumber (stackValue d key))) data) keys.

Definition offset_pair (p0 p1 : num * num) : num * num :=
  let lower := if isNaN p0.2 then p0.1 else p0.2 in
  (lower, num_add p1.2 lower).

Fixpoint offsetNone_from (s0 : list (num * num))
    (rest : list (list (num * num))) : list (list (num * num)) :=
  match rest with
  | [] => []
  | s1 :: rest' =>
      let s1' := zip_with offset_pair s0 s1 in
      s1' :: offsetNone_from s1' rest'
  end.

Definition offsetNone (ss : list (list (num * num)))
    : list (list (num * num)) :=
  match ss with
  | [] => []
  | s0 :: rest => s0 :: offsetNone_from s0 rest
  end.

Definition d3_stack (keys : list string) (data : list (gmap string jsval))
    : list (list series) :=
  map (map (λ p : num * num, SArr [VNum p.1; VNum p.2]))
      (offsetNone (stack_init keys data)).

(** Modelled from the spec: [groupByFields] of util/chart-helpers, the
    grouping transform, a pure function "from (flat record sequence, field
    name list) to grouped-by-field series" that "must preserve the number of
    rows and the per-row series count": one series per field, holding that
    field of every row. *)
Definition groupByFields (data : list (gmap string jsval))
    (fields : list string) : list (list series) :=
  map (λ field, map (λ d, SVal (get field d)) data) fields.

(** [_.flatten] of an array of series, one level. *)
Definition flatten_series (l : list series) : list jsval :=
  l ≫= λ s, match s with SArr vs => vs | SVal v => [v] end.

(** [a > b] on values. *)
Definition js_gt (a b : jsval) : bool :=
  match a, b with
  | VStr s, VStr t => String.ltb t s
  | _, _ => num_gt (ToNumber a) (ToNumber b)
  end.

(** [_.max]: the first value that is neither nullish nor NaN, replaced by
    each later value greater than it; undefined when there is none. *)
Definition max_step (computed : option jsval) (current : jsval)
    : option jsval :=
  match current with
  | VUndef | VNull => computed
  | _ =>
      match computed with
      | None =>
          match current with
          | VNum S754_nan => None
          | _ => Some current
          end
      | Some c => if js_gt current c then Some current else computed
      end
  end.

Definition lodash_max (l : list jsval) : jsval :=
  default VUndef (foldl max_step None l).

(** [isKey(value, object)]: the string names a property, not a path. *)
Definition isKey (value : string) (o : gmap string jsval) : bool :=
  reIsPlainProp value || negb (reIsDeepProp paths value)
  || has_property o value.

(** [_.get(object, key, defaultValue)]: the default for a nullish object
    and for an undefined result; the member named [key] when [key] names
    a property, own or inherited; the value at the end of the path
    otherwise. *)
Definition lodash_get (object : option (gmap string jsval)) (key : string)
    (defaultValue : jsval) : jsval :=
  match object with
  | None => defaultValue
  | Some o =>
      match (if isKey key o then property o key else baseGet paths o key)
      with
      | VUndef => defaultValue
      | v => v
      end
  end.

Definition transformedData (p : IPointsProps) : list (list series) :=
  if truthy (isStacked p) then d3_stack (yFields p) (data p)
  else groupByFields (data p) (yFields p).

(** The copy of the y scale, with its domain recomputed when stacked. *)
Definition rescaled (p : IPointsProps) : scale :=
  if truthy (isStacked p) then
    set_domain (yScale p)
      [default VUndef (domain (yScale p) !! 0%nat);
       js_or (yStackedMax p)
             (lodash_max
                (flatten_series (default [] (last (transformedData p)))))]
  else yScale p.

Definition color_of (p : IPointsProps) (dIndex : nat) : jsval :=
  lodash_get (colorMap p)
    (default "undefined" (yFields p !! dIndex))
    (from_option VStr VUndef
       (at_index (palette p)
          (num_rem (num_add (Fin (Z.of_nat dIndex)) (colorOffset p))
                   (Fin (Z.of_nat (length (palette p))))))).

(** The callback of the inner [_.map]: one mark, or nothing. *)
Definition renderSeries (p : IPointsProps) (dIndex seriesIndex : nat)
    (s : series) : result (option PointEl) :=
  if isValidSeries s then
    match data p !! seriesIndex with
    | None => TypeError
    | Some row =>
        Ok (Some
          {| pt_key := pretty seriesIndex +:+ pretty dIndex;
             pt_x := scale_call (xScale p) (get (xField p) row);
             pt_y := scale_call (rescaled p)
                       match s with
                       | SArr l => default VUndef (last l)
                       | SVal v => v
                       end;
             pt_hasStroke := hasStroke p;
             pt_kind := num_add (Fin (Z.of_nat dIndex)) (colorOffset p);
             pt_color := color_of p dIndex |})
    end
  else Ok None.

Definition Points (p : IPointsProps) : result g :=
  marks ← sequence
            (imap (λ dIndex d, sequence (imap (renderSeries p dIndex) d))
                  (transformedData p));
  mret {| g_attrs := omitProps (passThroughs p) propTypes_keys;
        g_className := cx [CVal (className p); CStr "&"];
        g_marks := marks |}.

End WithToNumber.

End Points.

(** ** Banner *)

Module Banner.

Definition cx := lucidClassNames_bind "&-Banner".

Record IBannerProps := {
  icon : jsval;
  kind : jsval;
  className : jsval;
  children : jsval;
  isCloseable : jsval;
  isClosed : jsval;
  isFilled : jsval;
  isSmall : jsval;
  onClose : jsval;
  passThroughs : gmap string jsval
}.

(** [Banner.defaultProps], filled in for the attributes left undefined. *)
Definition defaultProps (p : IBannerProps) : IBannerProps :=
  {| icon := dflt (icon p) VNull;
     kind := dflt (kind p) (VStr "default");
     className := className p;
     children := children p;
     isCloseable := dflt (isCloseable p) (VBool true);
     isClosed := dflt (isClosed p) (VBool false);
     isFilled := dflt (isFilled p) (VBool true);
     isSmall := dflt (isSmall p) (VBool false);
     onClose := dflt (onClose p) (VFun "_.noop");
     passThroughs := passThroughs p |}.

Definition propTypes_keys : list string :=
  ["icon"; "isCloseable"; "isFilled"; "isSmall"; "className"; "children";
   "kind"; "onClose"; "isClosed"].

Record CloseIconEl := {
  isClickable : bool;
  size : Z;
  close_className : string;
  close_onClick : event → gmap string jsval → outcome
}.

Record section := {
  section_attrs : gmap string jsval;
  section_className : string;
  icon_span : option (string * jsval);
  content_span : string * jsval;
  close : option CloseIconEl
}.

Record ReactTransitionGroup := {
  transitionName : string;
  transitionEnterTimeout : Z;
  transitionLeaveTimeout : Z;
  group_child : option section
}.

(** The modifier classes of the root [<section>]. *)
Definition modifiers (p : IBannerProps) (displayedIcon : jsval)
    : list (string * jsval) :=
  [("&-has-icon", displayedIcon);
   ("&-has-close", isCloseable p);
   ("&-primary", VBool (strict_eq_str (kind p) "primary"));
   ("&-success", VBool (strict_eq_str (kind p) "success"));
   ("&-warning", VBool (strict_eq_str (kind p) "warning"));
   ("&-danger", VBool (strict_eq_str (kind p) "danger"));
   ("&-info", VBool (strict_eq_str (kind p) "info"));
   ("&-small", isSmall p);
   ("&-filled", isFilled p)].

Definition Banner (p : IBannerProps) : ReactTransitionGroup :=
  let handleClose := λ (ev : event) (props : gmap string jsval),
    invoke (onClose p) None props ev in
  let displayedIcon := if truthy (icon p) then icon p else VNull in
  {| transitionName := cx [CStr "&"];
     transitionEnterTimeout := 300;
     transitionLeaveTimeout := 300;
     group_child :=
       if negb (truthy (isClosed p)) then
         Some {| section_attrs := omitProps (passThroughs p) propTypes_keys;
                 section_className :=
                   cx [CStr "&"; CDict (modifiers p displayedIcon);
                       CVal (className p)];
                 icon_span :=
                   if truthy displayedIcon
                   then Some (cx [CStr "&-icon"], displayedIcon) else None;
                 content_span := (cx [CStr "&-content"], children p);
                 close :=
                   if truthy (isCloseable p) then
                     Some {| isClickable := true;
                             size := 8;
                             close_className := cx [CStr "&-close"];
                             close_onClick := handleClose |}
                   else None |}
       else None |}.

End Banner.

(** * Specification-side definitions and sample inputs *)

(** The number of nodes of a flat sequence that carry tag [T]. *)
Fixpoint count_tagged (T : component) (l : list node) : nat :=
  match l with
  | [] => 0
  | n :: l' => (if decide (carries T n) then 1 else 0) + count_tagged T l'
  end.

(** [props] with another value of [isReversed]. *)
Definition with_isReversed (v : jsval) (p : Legend.ILegendProps)
    : Legend.ILegendProps :=
  {| Legend.className := Legend.className p;
     Legend.orient := Legend.orient p;
     Legend.hasBorders := Legend.hasBorders p;
     Legend.isReversed := v;
     Legend.children := Legend.children p;
     Legend.passThroughs := Legend.passThroughs p |}.

(** [<Legend.Item hasLine={l} hasPoint={pt} onClick={f} />] *)
Definition legendItem (l pt : bool) (f : jsval) : ReactNode :=
  Leaf (Elem (Element LegendItem
    (<["hasLine" := VBool l]> (<["hasPoint" := VBool pt]>
       (<["onClick" := f]> ∅))))).

(** A legend of two items, the first with a point and the second with a
    line and a click callback. *)
Definition sample_legend (orient : string) : Legend.ILegendProps :=
  {| Legend.className := VUndef;
     Legend.orient := VStr orient;
     Legend.hasBorders := VBool true;
     Legend.isReversed := VBool false;
     Legend.children :=
       Seq [legendItem false true VUndef;
            Leaf (Text "caption");
            Seq [legendItem true false (VFun "onSelect")]];
     Legend.passThroughs := ∅ |}.

(** [props] with other children. *)
Definition with_children (c : ReactNode) (p : Panel.IPanelProps)
    : Panel.IPanelProps :=
  {| Panel.children := c;
     Panel.className := Panel.className p;
     Panel.isGutterless := Panel.isGutterless p;
     Panel.hasMargin := Panel.hasMargin p;
     Panel.style := Panel.style p;
     Panel.isScrollable := Panel.isScrollable p;
     Panel.passThroughs := Panel.passThroughs p |}.

(** [<Panel.Header description={d} />] *)
Definition panelHeader (d : string) : element :=
  Element PanelHeader (<["description" := VStr d]> ∅).

(** A panel with a paragraph and the given header instances around it. *)
Definition sample_panel (later : list ReactNode) : Panel.IPanelProps :=
  {| Panel.children :=
       Seq (Leaf (Elem (panelHeader "first"))
            :: Leaf (Elem (Element (Other "p") ∅))
            :: later);
     Panel.className := VStr "wide";
     Panel.isGutterless := VUndef;
     Panel.hasMargin := VUndef;
     Panel.style := VUndef;
     Panel.isScrollable := VUndef;
     Panel.passThroughs := ∅ |}.

(** The style tokens of [Banner.kind] and the classes they switch on. *)
Definition kind_tokens : list string :=
  ["primary"; "success"; "warning"; "danger"; "info"; "default"].

Definition kind_classes : list string :=
  ["&-primary"; "&-success"; "&-warning"; "&-danger"; "&-info"].

(** A banner of the given kind. *)
Definition sample_banner (kind : jsval) : Banner.IBannerProps :=
  {| Banner.icon := VNull;
     Banner.kind := kind;
     Banner.className := VStr "top";
     Banner.children := VNode "Saved";
     Banner.isCloseable := VBool true;
     Banner.isClosed := VBool false;
     Banner.isFilled := VBool true;
     Banner.isSmall := VBool false;
     Banner.onClose := VFun "_.noop";
     Banner.passThroughs := ∅ |}.

(** The terminal value of a series: the last entry of a stacked pair, or
    the grouped value itself. *)
Definition terminal (s : Points.series) : jsval :=
  match s with
  | Points.SArr l => default VUndef (last l)
  | Points.SVal v => v
  end.

(** The mark rendered for series [dIndex] of row [seriesIndex], if any. *)
Definition mark_at (out : Points.g) (dIndex seriesIndex : nat)
    : option (option Points.PointEl) :=
  Points.g_marks out !! dIndex ≫= λ ms, ms !! seriesIndex.

Definition identity_scale : Points.scale :=
  {| Points.domain := [VNum (Fin 0); VNum (Fin 1)];
     Points.interpolate := λ _ v, v |}.

(** A sample reading of strings as numbers: none is numeric. *)
Definition no_numeric_strings (s : string) : num := NaN.

(** A sample reading of paths: no string is a deep path. *)
Definition plain_paths : Points.lodash_paths :=
  {| Points.reIsDeepProp := λ _, false;
     Points.baseGet := λ _ _, VUndef |}.

Definition num_row (x : string) (ys : list (string * jsval))
    : gmap string jsval :=
  <["x" := VStr x]> (list_to_map ys).

Definition sample_points (stacked : bool) (yStackedMax : jsval)
    (colorOffset : Z) (yFields : list string)
    (data : list (gmap string jsval)) : Points.IPointsProps :=
  {| Points.className := VUndef;
     Points.data := data;
     Points.palette := ["red"; "blue"];
     Points.colorMap := Some (<["y0" := VStr "#abc123"]> ∅);
     Points.colorOffset := Fin colorOffset;
     Points.xField := "x";
     Points.hasStroke := VBool true;
     Points.xScale := identity_scale;
     Points.yFields := yFields;
     Points.yStackedMax := yStackedMax;
     Points.isStacked := VBool stacked;
     Points.yScale := identity_scale;
     Points.passThroughs := ∅ |}.

(** Rows for the samples: a text where a number belongs in the second. *)
Definition rows_with_bad_value : list (gmap string jsval) :=
  [num_row "a" [("y0", VNum (Fin 1)); ("y1", VNum (Fin 2))];
   num_row "b" [("y0", VStr "n/a"); ("y1", VNum (Fin 1))]].

(** Three series over one row, for a palette of two colors. *)
Definition three_series_row : list (gmap string jsval) :=
  [num_row "a" [("y0", VNum (Fin 1)); ("y1", VNum (Fin 1));
                ("y2", VNum (Fin 1))]].

(** The upper bound of the domain of the y scale the marks are placed
    with. *)
Definition upper_bound (StringToNumber : string → num)
    (p : Points.IPointsProps) : option jsval :=
  Points.domain (Points.rescaled StringToNumber p) !! 1%nat.

Definition stacking_rows : list (gmap string jsval) :=
  [num_row "a" [("y0", VNum (Fin 1)); ("y1", VNum (Fin 2))];
   num_row "b" [("y0", VNum (Fin 3)); ("y1", VNum (Fin 1))]].

Definition falling_row : list (gmap string jsval) :=
  [num_row "a" [("y0", VNum (Fin 5)); ("y1", VNum (Fin (-2)))]].

(** [props] with other children, for a Legend. *)
Definition with_legend_children (c : ReactNode) (p : Legend.ILegendProps)
    : Legend.ILegendProps :=
  {| Legend.className := Legend.className p;
     Legend.orient := Legend.orient p;
     Legend.hasBorders := Legend.hasBorders p;
     Legend.isReversed := Legend.isReversed p;
     Legend.children := c;
     Legend.passThroughs := Legend.passThroughs p |}.

(** A legend that leaves orient, hasBorders and isReversed out. *)
Definition bare_legend (c : ReactNode) : Legend.ILegendProps :=
  {| Legend.className := VUndef;
     Legend.orient := VUndef;
     Legend.hasBorders := VUndef;
     Legend.isReversed := VUndef;
     Legend.children := c;
     Legend.passThroughs := ∅ |}.

(** [<Legend.Item onClick={f}>label</Legend.Item>] *)
Definition clickable (f : jsval) : gmap string jsval :=
  <["onClick" := f]> (<["children" := VNode "label"]> ∅).

(** The kinds of [Banner] that have a class of their own. *)
Definition styled_kinds : list string :=
  ["primary"; "success"; "warning"; "danger"; "info"].

(** A banner that leaves every optional attribute out. *)
Definition bare_banner : Banner.IBannerProps :=
  {| Banner.icon := VUndef;
     Banner.kind := VUndef;
     Banner.className := VUndef;
     Banner.children := VNode "Saved";
     Banner.isCloseable := VUndef;
     Banner.isClosed := VUndef;
     Banner.isFilled := VUndef;
     Banner.isSmall := VUndef;
     Banner.onClose := VUndef;
     Banner.passThroughs := ∅ |}.

(** What a child of the content region renders to, if anything. *)
Definition dom_of (n : node) : option dom :=
  match n with
  | Text s => Some (DText s)
  | Elem e =>
      match type e with
      | Other name => Some (DComponent name (props e))
      | LegendItem | PanelHeader | PanelFooter => None
      end
  end.

(** [<Panel.Footer className={c}>done</Panel.Footer>] *)
Definition panelFooter (c : string) : element :=
  Element PanelFooter
    (<["className" := VStr c]> (<["children" := VNode "done"]> ∅)).

(** The mark of series [dIndex] for [row], the [j]-th row, placed at the
    value [v] on the y scale [ys]. *)
Definition point_at (paths : Points.lodash_paths) (p : Points.IPointsProps)
    (ys : Points.scale) (dIndex j : nat) (row : gmap string jsval) (v : jsval)
    : Points.PointEl :=
  {| Points.pt_key := pretty j +:+ pretty dIndex;
     Points.pt_x := Points.scale_call (Points.xScale p)
                      (get (Points.xField p) row);
     Points.pt_y := Points.scale_call ys v;
     Points.pt_hasStroke := Points.hasStroke p;
     Points.pt_kind := num_add (Fin (Z.of_nat dIndex)) (Points.colorOffset p);
     Points.pt_color := Points.color_of paths p dIndex |}.

(** Stacking along one row: the pairs of the successive series for the
    numeric values [vs] of the row's y fields. *)
Fixpoint stack_row_from (p0 : num * num) (vs : list num)
    : list (num * num) :=
  match vs with
  | [] => []
  | v :: vs' =>
      let p1 := Points.offset_pair p0 (Fin 0, v) in
      p1 :: stack_row_from p1 vs'
  end.

Definition stack_row (vs : list num) : list (num * num) :=
  match vs with
  | [] => []
  | v :: vs' => (Fin 0, v) :: stack_row_from (Fin 0, v) vs'
  end.

(** The values of the y fields of a row, as numbers. *)
Definition row_values (StringToNumber : string → num) (fields : list string)
    (row : gmap string jsval) : list num :=
  (λ key, Points.ToNumber StringToNumber (Points.stackValue row key))
    <$> fields.

(** The running sums of the numbers [vs], as the stack adds them: each
    value is added to the sum of the values before it. *)
Fixpoint sums_from (acc : num) (vs : list num) : list num :=
  match vs with
  | [] => []
  | v :: vs' => num_add v acc :: sums_from (num_add v acc) vs'
  end.

Definition running_sums (vs : list num) : list num :=
  match vs with
  | [] => []
  | v :: vs' => v :: sums_from v vs'
  end.

(** The cumulative sum of [vs]: the last of its running sums, zero when
    there is no value. *)
Definition cumulative (vs : list num) : num :=
  default (Fin 0) (last (running_sums vs)).

(** The two edges of the top layer of a stack over a row of values: the
    cumulative sum of all the values but the last, and of all of them. *)
Definition top_edges (vs : list num) : list num :=
  [cumulative (removelast vs); cumulative vs].

(** A number that is not an infinity. *)
Definition not_infinite (n : num) : Prop :=
  match n with
  | S754_infinity _ => False
  | _ => True
  end.

(** Rows with a missing value and a numeric text. *)
Definition rows_with_gap : list (gmap string jsval) :=
  [num_row "a" [("y0", VNum (Fin 1)); ("y2", VNum (Fin 4))];
   num_row "b" [("y0", VStr "7"); ("y1", VNum (Fin 1)); ("y2", VNum (Fin 2))]].

(** A sample reading of strings as numbers: "7" is 7, nothing else is
    numeric. *)
Definition seven_only (s : string) : num :=
  if bool_decide (s = "7") then Fin 7 else NaN.

(** [props] with another value of [yStackedMax]. *)
Definition with_yStackedMax (v : jsval) (p : Points.IPointsProps)
    : Points.IPointsProps :=
  {| Points.className := Points.className p;
     Points.data := Points.data p;
     Points.palette := Points.palette p;
     Points.colorMap := Points.colorMap p;
     Points.colorOffset := Points.colorOffset p;
     Points.xField := Points.xField p;
     Points.hasStroke := Points.hasStroke p;
     Points.xScale := Points.xScale p;
     Points.yFields := Points.yFields p;
     Points.yStackedMax := v;
     Points.isStacked := Points.isStacked p;
     Points.yScale := Points.yScale p;
     Points.passThroughs := Points.passThroughs p |}.

(** * Properties *)

(** Case analysis on membership in an explicit list. *)
Ltac elem_cases H :=
  repeat (apply elem_of_cons in H as [-> | H]);
  [..| by apply elem_of_nil in H].

(** No element of an explicit list of literals equals the given one. *)
Ltac not_among H :=
  repeat (apply elem_of_cons in H as [H | H]; [discriminate|]);
  by apply elem_of_nil in H.

(** Evaluate the comparisons of a string value with a string literal. *)
Ltac eval_strict_eq :=
  repeat match goal with
  | |- context [strict_eq_str (VStr ?a) ?b] =>
      let v := eval vm_compute in (strict_eq_str (VStr a) b) in
      replace (strict_eq_str (VStr a) b) with v by (vm_compute; reflexivity)
  end.

(** ** Numbers *)

Lemma num_gt_irrefl (a : num) : num_gt a a = false.
Proof.
  unfold num_gt, SFltb. destruct a as [s|s| |s m e]; simpl; try done.
  - by destruct s.
  - rewrite Z.compare_refl.
    change (Pos.compare_cont Eq m m) with (Pos.compare m m).
    rewrite Pos.compare_refl. by destruct s.
Qed.

Lemma num_gt_trans (a b c : num) :
  num_gt a b = true → num_gt b c = true → num_gt a c = true.
Proof.
  unfold num_gt, SFltb.
  destruct a as [sa|sa| |sa ma ea], b as [sb|sb| |sb mb eb],
    c as [sc|sc| |sc mc ec]; simpl; try done;
    try (destruct sa; done); try (destruct sb; done); try (destruct sc; done);
    try (destruct sa, sb; done); try (destruct sb, sc; done);
    try (destruct sa, sc; done); try (destruct sa, sb, sc; done).
  change (Pos.compare_cont Eq ?x ?y) with (Pos.compare x y).
  destruct sa, sb, sc; try done;
    destruct (Z.compare_spec eb ea), (Z.compare_spec ec eb),
      (Z.compare_spec ec ea); try done; try lia; subst;
    destruct (Pos.compare_spec mb ma), (Pos.compare_spec mc mb),
      (Pos.compare_spec mc ma); try done; try lia.
Qed.

(** Sums are rounded to the nearest double, and overflow to an infinity;
    the remainder has the sign of the dividend. *)
Example num_add_rounds :
  num_add (Fin (2 ^ 53)) (Fin 1) = Fin (2 ^ 53)
  ∧ num_add (Fin (2 ^ 1023)) (Fin (2 ^ 1023)) = S754_infinity false
  ∧ num_rem (Fin (-1)) (Fin 2) = Fin (-1)
  ∧ num_rem (Fin 7) (Fin 2) = Fin 1.
Proof. repeat split; vm_compute; reflexivity. Qed.

(** Rounding a mantissa that is not negative never gives NaN. *)
Lemma shr_1_nonneg (mrs : shr_record) : 0 ≤ shr_m mrs → 0 ≤ shr_m (shr_1 mrs).
Proof.
  destruct mrs as [m r s]. simpl.
  destruct m as [|[q|q|]|[q|q|]]; simpl; lia.
Qed.

Lemma iter_pos_shr_1_nonneg (n : positive) (mrs : shr_record) :
  0 ≤ shr_m mrs → 0 ≤ shr_m (SpecFloat.iter_pos shr_1 n mrs).
Proof.
  revert mrs. induction n as [n IH|n IH|]; intros mrs H; simpl.
  - apply IH, IH, shr_1_nonneg, H.
  - apply IH, IH, H.
  - apply shr_1_nonneg, H.
Qed.

Lemma shr_fexp_nonneg (m e : Z) (l : location) :
  0 ≤ m → 0 ≤ shr_m (shr_fexp prec emax m e l).1.
Proof.
  intros H. unfold shr_fexp, shr.
  assert (H0 : 0 ≤ shr_m (shr_record_of_loc m l)).
  { by destruct l as [|[]]. }
  destruct (fexp prec emax (Zdigits2 m + e) - e); simpl; try done.
  by apply iter_pos_shr_1_nonneg.
Qed.

Lemma round_nearest_even_nonneg (m : Z) (l : location) :
  0 ≤ m → 0 ≤ round_nearest_even m l.
Proof.
  intros H. destruct l as [|[]]; simpl; try lia.
  destruct (Z.even m); lia.
Qed.

Lemma binary_round_aux_not_NaN (s : bool) (m e : Z) (l : location) :
  0 ≤ m → isNaN (binary_round_aux prec emax s m e l) = false.
Proof.
  intros H. unfold binary_round_aux.
  assert (H1 := shr_fexp_nonneg m e l H).
  destruct (shr_fexp prec emax m e l) as [mrs' e'].
  assert (H2 := shr_fexp_nonneg
                  (round_nearest_even (shr_m mrs') (loc_of_shr_record mrs'))
                  e' loc_Exact
                  (round_nearest_even_nonneg _ _ H1)).
  destruct (shr_fexp prec emax _ e' loc_Exact) as [mrs'' e''].
  simpl in H2. destruct (shr_m mrs''); [done| |lia].
  by destruct (e'' <=? emax - prec).
Qed.

Lemma binary_normalize_not_NaN (m e : Z) (s : bool) :
  isNaN (binary_normalize prec emax m e s) = false.
Proof.
  destruct m; simpl; [done| |]; unfold binary_round;
    destruct (shl_align _ _ _); by apply binary_round_aux_not_NaN.
Qed.

(** The sum of two finite numbers is a number: finite, or an infinity
    when it is out of range. *)
Lemma num_add_finite_not_NaN (a b : num) :
  Points.isFinite (VNum a) = true → Points.isFinite (VNum b) = true →
  isNaN (num_add a b) = false.
Proof.
  destruct a as [sa|sa| |sa ma ea], b as [sb|sb| |sb mb eb]; try done.
  - intros _ _. by destruct sa, sb.
  - intros _ _. unfold num_add, SFadd. apply binary_normalize_not_NaN.
Qed.

(** ** Slot extraction *)

Lemma as_slot_Some T n e : as_slot T n = Some e ↔ n = Elem e ∧ type e = T.
Proof.
  destruct n as [e'|s]; simpl.
  - destruct (decide (type e' = T)); split.
    + intros [= ->]. done.
    + intros [[= ->] _]. done.
    + done.
    + intros [[= ->] ?]. done.
  - split; [done | intros [? _]; done].
Qed.

Lemma as_slot_None T n : as_slot T n = None ↔ ¬ carries T n.
Proof.
  destruct n as [e|s]; simpl; [|tauto].
  destruct (decide (type e = T)); split; intros; try done.
Qed.

Lemma omap_as_slot_filter T (l : list node) :
  Elem <$> omap (as_slot T) l = filter (carries T) l.
Proof.
  induction l as [|n l IH]; [done|].
  rewrite filter_cons. destruct n as [e|s]; csimpl.
  - destruct (decide (type e = T)); csimpl; by rewrite IH.
  - done.
Qed.

Lemma length_filter_count T (l : list node) :
  length (filter (carries T) l) = count_tagged T l.
Proof.
  induction l as [|n l IH]; [done|].
  rewrite filter_cons. simpl.
  destruct (decide (carries T n)); simpl; by rewrite IH.
Qed.

Lemma flatten_Seq (cs : list ReactNode) : flatten (Seq cs) = cs ≫= flatten.
Proof.
  simpl. induction cs as [|c cs IH]; [done|]. csimpl. by rewrite IH.
Qed.

Lemma findTypes_Seq (cs : list ReactNode) (T : component) :
  findTypes (Seq cs) T = cs ≫= λ c, findTypes c T.
Proof.
  unfold findTypes. rewrite flatten_Seq.
  induction cs as [|c cs IH]; [done|]. csimpl.
  by rewrite omap_app, IH.
Qed.

Lemma flatten_flat (l : list node) : flatten (Seq (Leaf <$> l)) = l.
Proof.
  rewrite flatten_Seq. induction l as [|n l IH]; [done|]. csimpl.
  by rewrite IH.
Qed.

Lemma flatten_nested (ls : list (list node)) :
  flatten (Seq ((λ l, Seq (Leaf <$> l)) <$> ls)) = concat ls.
Proof.
  rewrite flatten_Seq. induction ls as [|l ls IH]; [done|].
  rewrite fmap_cons, bind_cons, flatten_flat, IH. done.
Qed.

(** C3: slot extraction returns exactly the subsequence of the children
    whose elements carry the tag, in their original relative order, and
    its length is the number of tagged elements; with no tagged element it
    is the empty sequence (no input makes it fail).  For children that are
    a single node: that node if it carries the tag, nothing otherwise; for
    an empty sequence: nothing; for a flat sequence [l] of nodes: the tagged
    nodes of [l]; for a sequence of sequences [ls]: the tagged nodes of
    their concatenation; for any sequence, however nested: the extractions
    from its members, one after the other.  Flattening keeps every node:
    a single node is itself, a sequence is its members flattened in turn. *)
Theorem findTypes_exact_subsequence (c : ReactNode) (T : component) :
  ((∀ n, flatten (Leaf n) = [n])
   ∧ (∀ cs, flatten (Seq cs) = cs ≫= flatten))
  ∧ ((∀ e, findTypes (Leaf (Elem e)) T
           = if decide (type e = T) then [e] else [])
     ∧ (∀ s, findTypes (Leaf (Text s)) T = [])
     ∧ findTypes (Seq []) T = []
     ∧ (∀ cs, findTypes (Seq cs) T = cs ≫= λ c', findTypes c' T))
  ∧ (∀ l : list node,
       Elem <$> findTypes (Seq (Leaf <$> l)) T = filter (carries T) l
       ∧ length (findTypes (Seq (Leaf <$> l)) T) = count_tagged T l)
  ∧ (∀ ls : list (list node),
       Elem <$> findTypes (Seq ((λ l, Seq (Leaf <$> l)) <$> ls)) T
       = filter (carries T) (concat ls)
       ∧ length (findTypes (Seq ((λ l, Seq (Leaf <$> l)) <$> ls)) T)
         = count_tagged T (concat ls))
  ∧ Elem <$> findTypes c T = filter (carries T) (flatten c)
  ∧ (Elem <$> findTypes c T) `sublist_of` flatten c
  ∧ (∀ e, e ∈ findTypes c T ↔ Elem e ∈ flatten c ∧ type e = T)
  ∧ length (findTypes c T) = count_tagged T (flatten c)
  ∧ (count_tagged T (flatten c) = 0%nat ↔ findTypes c T = []).
Proof.
  assert (Hf : ∀ c', Elem <$> findTypes c' T = filter (carries T) (flatten c')).
  { intros c'. apply omap_as_slot_filter. }
  assert (Hlen : ∀ c', length (findTypes c' T) = count_tagged T (flatten c')).
  { intros c'. rewrite <- length_filter_count, <- Hf. by rewrite length_fmap. }
  split; [split; [done | apply flatten_Seq]|].
  split.
  { split; [|split; [|split]]; [| done | done | intros cs; apply findTypes_Seq].
    intros e. unfold findTypes. csimpl. by destruct (decide (type e = T)). }
  split.
  { intros l. by rewrite Hf, Hlen, flatten_flat. }
  split.
  { intros ls. by rewrite Hf, Hlen, flatten_nested. }
  split; [apply Hf|]. split.
  { rewrite Hf. apply sublist_filter. }
  split.
  { intros e. unfold findTypes. rewrite list_elem_of_omap. split.
    - intros (n & Hn & Hs). apply as_slot_Some in Hs as [-> ?]. done.
    - intros [Hin Ht]. exists (Elem e). split; [done|].
      by apply as_slot_Some. }
  split; [apply Hlen|].
  rewrite <- Hlen. split.
  - apply nil_length_inv.
  - intros ->. done.
Qed.

(** Extraction from no children, from a single marker, and from children
    with a text, a nested sequence and a second marker after it. *)
Lemma findTypes_exact_subsequence_witness :
  findTypes (Seq []) PanelHeader = []
  ∧ findTypes (Leaf (Elem (panelHeader "only"))) PanelHeader
    = [panelHeader "only"]
  ∧ findTypes (Leaf (Elem (panelFooter "foot"))) PanelHeader = []
  ∧ findTypes
      (Seq [Leaf (Text "intro");
            Seq [Leaf (Elem (panelHeader "first"));
                 Leaf (Elem (panelFooter "foot"))];
            Leaf (Elem (panelHeader "second"))])
      PanelHeader
    = [panelHeader "first"; panelHeader "second"]
  ∧ Elem <$> findTypes
               (Seq ((λ l, Seq (Leaf <$> l))
                     <$> [[Text "intro"; Elem (panelHeader "first")]; [];
                          [Elem (panelFooter "foot");
                           Elem (panelHeader "second")]]))
               PanelHeader
    = [Elem (panelHeader "first"); Elem (panelHeader "second")].
Proof.
  destruct (findTypes_exact_subsequence (Seq []) PanelHeader)
    as (_ & (Hleaf & Htext & Hnil & Hseq) & _ & Hnested & _).
  split; [exact Hnil|]. split; [by rewrite Hleaf|]. split; [by rewrite Hleaf|].
  split.
  - rewrite Hseq, !bind_cons.
    rewrite Htext, Hseq, !bind_cons, !Hleaf. reflexivity.
  - rewrite (proj1 (Hnested _)). reflexivity.
Defined.

(** ** Legend *)

Section LegendProperties.
Import Legend.

(** Row [i] of the rendered list is the row of the [i]-th extracted item. *)
Lemma Legend_row (p : ILegendProps) (i : nat) (item : gmap string jsval) :
  itemProps p !! i = Some item →
  ul_items (Legend p) !! i
  = Some (renderItem (itemProps p)
            (strict_eq_str (orient p) "vertical"
             && existsb (λ item, truthy (get "hasLine" item)) (itemProps p))
            i item).
Proof.
  intros Hi. unfold Legend. cbn [ul_items].
  rewrite list_lookup_imap, Hi. done.
Qed.

Lemma Legend_rows_length (p : ILegendProps) :
  length (ul_items (Legend p)) = length (itemProps p).
Proof. unfold Legend. cbn [ul_items]. apply length_imap. Qed.

Lemma existsb_Exists_truthy (l : list (gmap string jsval)) :
  Exists (λ item, truthy (get "hasLine" item) = true) l →
  existsb (λ item, truthy (get "hasLine" item)) l = true.
Proof.
  intros H. apply existsb_exists. apply Exists_exists in H as (x & Hx & Ht).
  exists x. split; [by apply list_elem_of_In | done].
Qed.

(** A click on a rendered row runs [handleItemClick] on the row's own
    index and item. *)
Lemma Legend_row_onClick (p : ILegendProps) (i : nat)
    (item : gmap string jsval) (ev : event) :
  itemProps p !! i = Some item →
  ∃ row, ul_items (Legend p) !! i = Some row
         ∧ key row = i
         ∧ onClick row ev = handleItemClick i item ev.
Proof.
  intros Hi. eexists. split; [by apply Legend_row|].
  split; [done|]. cbn [renderItem onClick]. by rewrite Hi.
Qed.

(** C1: in vertical orientation, as soon as one item has a line, every
    item that renders an indicator renders it at the line width, 22. *)
Theorem Legend_vertical_any_line_widens_all (p : ILegendProps) :
  orient p = VStr "vertical" →
  Exists (λ item, truthy (get "hasLine" item) = true) (itemProps p) →
  ∀ i item,
    itemProps p !! i = Some item →
    truthy (get "hasPoint" item) || truthy (get "hasLine" item) = true →
    ∃ row s, ul_items (Legend p) !! i = Some row
             ∧ indicator row = Some s
             ∧ width s = 22.
Proof.
  intros Ho Hex i item Hi Hind.
  eexists _, _. split; [by apply Legend_row|].
  cbn [renderItem indicator]. rewrite Hind. split; [done|].
  cbn [width]. rewrite Ho, (existsb_Exists_truthy _ Hex).
  by rewrite orb_true_r.
Qed.

(** C9: an item with a line renders its own indicator at the line width,
    22, in any orientation; outside vertical orientation an item with a
    point and no line renders at the point width, 12, whatever the other
    items have. *)
Theorem Legend_own_line_widens_own_indicator (p : ILegendProps) (i : nat)
    (item : gmap string jsval) :
  itemProps p !! i = Some item →
  (truthy (get "hasLine" item) = true →
   ∃ row s, ul_items (Legend p) !! i = Some row
            ∧ indicator row = Some s ∧ width s = 22)
  ∧ (orient p ≠ VStr "vertical" →
     truthy (get "hasPoint" item) = true →
     truthy (get "hasLine" item) = false →
     ∃ row s, ul_items (Legend p) !! i = Some row
              ∧ indicator row = Some s ∧ width s = 12).
Proof.
  intros Hi. split.
  - intros Hl. eexists _, _. split; [by apply Legend_row|].
    cbn [renderItem indicator]. rewrite Hl, orb_true_r. split; [done|].
    done.
  - intros Ho Hp Hl. eexists _, _. split; [by apply Legend_row|].
    cbn [renderItem indicator]. rewrite Hp, Hl. split; [done|].
    cbn [width orb].
    assert (strict_eq_str (orient p) "vertical" = false) as ->; [|done].
    destruct (orient p) as [| |b|n|s|t|f|c]; try done. simpl.
    apply bool_decide_eq_false. congruence.
Qed.

(** C4: a click on row [i] calls the callback the [i]-th item declared,
    once, with [(i, { event, props })] for that item's props, and calls
    nothing else; with no callback declared the click does nothing and
    does not raise. *)
Theorem Legend_click_invokes_own_callback (p : ILegendProps) (i : nat)
    (item : gmap string jsval) (ev : event) :
  itemProps p !! i = Some item →
  ∃ row, ul_items (Legend p) !! i = Some row
    ∧ key row = i
    ∧ (∀ f, item !! "onClick" = Some (VFun f) →
            onClick row ev = Returns [Call f (Some i) item ev])
    ∧ (item !! "onClick" = None → onClick row ev = Returns [])
    ∧ (item !! "onClick" = Some VUndef → onClick row ev = Returns []).
Proof.
  intros Hi.
  destruct (Legend_row_onClick p i item ev Hi) as (row & Hrow & Hkey & Hc).
  exists row. split; [done|]. split; [done|].
  rewrite Hc. unfold handleItemClick, get.
  split; [|split].
  - intros f ->. done.
  - intros ->. done.
  - intros ->. done.
Qed.

(** C5: the value of [isReversed] reaches the root class name only, as the
    condition of the reversed modifier; the rows, their handlers and the
    forwarded attributes are the same for every value, and a click on row
    [i] reports [i], its position among the extracted items. *)
Theorem Legend_isReversed_only_class (p : ILegendProps) (v : jsval) :
  ul_items (Legend (with_isReversed v p)) = ul_items (Legend p)
  ∧ ul_attrs (Legend (with_isReversed v p)) = ul_attrs (Legend p)
  ∧ ul_className (Legend (with_isReversed v p))
    = cx [CStr "&";
          CDict [("&-is-horizontal",
                  VBool (strict_eq_str (orient p) "horizontal"));
                 ("&-is-vertical",
                  VBool (strict_eq_str (orient p) "vertical"));
                 ("&-has-borders", hasBorders p);
                 ("&-is-reversed", v)];
          CVal (className p)]
  ∧ (∀ i item ev,
       itemProps p !! i = Some item →
       ∃ row, ul_items (Legend (with_isReversed v p)) !! i = Some row
              ∧ ul_items (Legend p) !! i = Some row
              ∧ onClick row ev = handleItemClick i item ev
              ∧ (∀ f, item !! "onClick" = Some (VFun f) →
                      onClick row ev = Returns [Call f (Some i) item ev])).
Proof.
  split; [done|]. split; [done|]. split; [done|].
  intros i item ev Hi.
  destruct (Legend_row_onClick p i item ev Hi) as (row & Hrow & _ & Hc).
  exists row. do 3 (split; [done|]).
  intros f Hf. rewrite Hc. unfold handleItemClick, get. by rewrite Hf.
Qed.

Lemma Legend_vertical_any_line_widens_all_witness :
  orient (sample_legend "vertical") = VStr "vertical"
  ∧ (∃ row s, ul_items (Legend (sample_legend "vertical")) !! 0%nat = Some row
              ∧ indicator row = Some s ∧ width s = 22)
  ∧ (∃ row s, ul_items (Legend (sample_legend "vertical")) !! 1%nat = Some row
              ∧ indicator row = Some s ∧ width s = 22).
Proof.
  split; [reflexivity|].
  split.
  - apply (Legend_vertical_any_line_widens_all (sample_legend "vertical")
             eq_refl)
      with (item := <["hasLine" := VBool false]> (<["hasPoint" := VBool true]>
                      (<["onClick" := VUndef]> ∅))).
    + apply Exists_cons_tl, Exists_cons_hd. reflexivity.
    + reflexivity.
    + reflexivity.
  - apply (Legend_vertical_any_line_widens_all (sample_legend "vertical")
             eq_refl)
      with (item := <["hasLine" := VBool true]> (<["hasPoint" := VBool false]>
                      (<["onClick" := VFun "onSelect"]> ∅))).
    + apply Exists_cons_tl, Exists_cons_hd. reflexivity.
    + reflexivity.
    + reflexivity.
Defined.

Lemma Legend_own_line_widens_own_indicator_witness :
  (∃ row s, ul_items (Legend (sample_legend "horizontal")) !! 1%nat = Some row
            ∧ indicator row = Some s ∧ width s = 22)
  ∧ (∃ row s, ul_items (Legend (sample_legend "horizontal")) !! 0%nat = Some row
              ∧ indicator row = Some s ∧ width s = 12).
Proof.
  split.
  - apply (Legend_own_line_widens_own_indicator
             (sample_legend "horizontal") 1
             (<["hasLine" := VBool true]> (<["hasPoint" := VBool false]>
                (<["onClick" := VFun "onSelect"]> ∅)))
             eq_refl).
    reflexivity.
  - apply (Legend_own_line_widens_own_indicator
             (sample_legend "horizontal") 0
             (<["hasLine" := VBool false]> (<["hasPoint" := VBool true]>
                (<["onClick" := VUndef]> ∅)))
             eq_refl).
    + discriminate.
    + reflexivity.
    + reflexivity.
Defined.

Lemma Legend_click_invokes_own_callback_witness :
  ∃ row, ul_items (Legend (sample_legend "vertical")) !! 1%nat = Some row
    ∧ onClick row (MouseEvent 7)
      = Returns [Call "onSelect" (Some 1%nat)
                   (<["hasLine" := VBool true]> (<["hasPoint" := VBool false]>
                      (<["onClick" := VFun "onSelect"]> ∅)))
                   (MouseEvent 7)].
Proof.
  destruct (Legend_click_invokes_own_callback
              (sample_legend "vertical") 1
              (<["hasLine" := VBool true]> (<["hasPoint" := VBool false]>
                 (<["onClick" := VFun "onSelect"]> ∅)))
              (MouseEvent 7) eq_refl)
    as (row & Hrow & _ & Hf & _).
  exists row. split; [exact Hrow|]. apply Hf. reflexivity.
Defined.

Lemma Legend_isReversed_only_class_witness :
  ∃ row, ul_items (Legend (with_isReversed (VBool true)
                             (sample_legend "vertical"))) !! 1%nat = Some row
         ∧ ul_items (Legend (sample_legend "vertical")) !! 1%nat = Some row
         ∧ key row = 1%nat.
Proof.
  destruct (Legend_isReversed_only_class (sample_legend "vertical")
              (VBool true)) as (_ & _ & _ & H).
  destruct (H 1%nat
              (<["hasLine" := VBool true]> (<["hasPoint" := VBool false]>
                 (<["onClick" := VFun "onSelect"]> ∅)))
              (MouseEvent 0) eq_refl) as (row & H1 & H2 & _ & _).
  exists row. split; [exact H1|]. split; [exact H2|].
  pose proof H2 as H3. vm_compute in H3. injection H3 as <-. reflexivity.
Defined.

End LegendProperties.

(** ** Panel *)

Section PanelProperties.
Import Panel.

Lemma head_fmap {A B} (f : A → B) (l : list A) :
  head (f <$> l) = f <$> head l.
Proof. by destruct l. Qed.

Lemma head_app_cons {A} (l : list A) (x : A) (k k' : list A) :
  head (l ++ x :: k) = head (l ++ x :: k').
Proof. by destruct l. Qed.

(** Dropping a later instance of a slot does not change the first match
    of any slot type. *)
Lemma head_slot_drop_later (T : component) (h1 h2 : element)
    (l1 l2 l3 : list node) :
  type h1 = type h2 →
  head (omap (as_slot T) (l1 ++ Elem h1 :: l2 ++ Elem h2 :: l3))
  = head (omap (as_slot T) (l1 ++ Elem h1 :: l2 ++ l3)).
Proof.
  intros Ht.
  rewrite !omap_app. csimpl. rewrite !omap_app. csimpl.
  rewrite <- Ht.
  destruct (decide (type h1 = T)); [apply head_app_cons | done].
Qed.

Lemma render_children_drop_marker (h2 : element) (l l3 : list node) :
  type h2 = PanelHeader ∨ type h2 = PanelFooter →
  (l ++ Elem h2 :: l3) ≫= render_node = (l ++ l3) ≫= render_node.
Proof.
  intros Ht. rewrite !bind_app, bind_cons.
  assert (render_node (Elem h2) = []) as ->; [|done].
  simpl. by destruct Ht as [-> | ->].
Qed.

(** C6: among the instances of a first-mode slot only the first is used
    for its region, and an instance after the first leaves no trace: the
    rendered output is the same with it as without it. *)
Theorem Panel_later_slot_instance_ignored (p : IPanelProps) (c' : ReactNode)
    (h1 h2 : element) (l1 l2 l3 : list node) :
  type h2 = PanelHeader ∨ type h2 = PanelFooter →
  type h1 = type h2 →
  flatten (children p) = l1 ++ Elem h1 :: l2 ++ Elem h2 :: l3 →
  flatten c' = l1 ++ Elem h1 :: l2 ++ l3 →
  mount (Panel p) = mount (Panel (with_children c' p))
  ∧ (∀ first rest, findTypes (children p) PanelHeader = first :: rest →
       header (Panel p) = Some (region "&-Header" (props first)))
  ∧ (∀ first rest, findTypes (children p) PanelFooter = first :: rest →
       footer (Panel p) = Some (region "&-Footer" (props first))).
Proof.
  intros Hm Ht Hc Hc'. split; [|split].
  - unfold mount, Panel, render_children, findTypes. cbn.
    rewrite Hc, Hc'.
    rewrite !head_fmap, !(head_slot_drop_later _ h1 h2) by done.
    f_equal.
    rewrite (app_comm_cons l2), !app_assoc.
    rewrite (render_children_drop_marker h2) by done.
    by rewrite <- !app_assoc.
  - intros first rest Hf. unfold Panel. cbn. by rewrite Hf.
  - intros first rest Hf. unfold Panel. cbn. by rewrite Hf.
Qed.

Lemma Panel_later_slot_instance_ignored_witness :
  mount (Panel (sample_panel [Leaf (Elem (panelHeader "second"))]))
  = mount (Panel (sample_panel []))
  ∧ header (Panel (sample_panel [Leaf (Elem (panelHeader "second"))]))
    = Some (region "&-Header" (props (panelHeader "first"))).
Proof.
  destruct (Panel_later_slot_instance_ignored
              (sample_panel [Leaf (Elem (panelHeader "second"))])
              (Seq [Leaf (Elem (panelHeader "first"));
                    Leaf (Elem (Element (Other "p") ∅))])
              (panelHeader "first") (panelHeader "second")
              [] [Elem (Element (Other "p") ∅)] [])
    as (Hm & Hh & _).
  - left. reflexivity.
  - reflexivity.
  - reflexivity.
  - reflexivity.
  - split; [exact Hm|]. apply (Hh _ [panelHeader "second"]). reflexivity.
Defined.

End PanelProperties.

(** ** Modifier classes of Banner and Legend *)

Lemma strict_eq_str_ne (v : jsval) (lit : string) :
  v ≠ VStr lit → strict_eq_str v lit = false.
Proof.
  intros Hne. destruct v; try done. simpl.
  apply bool_decide_eq_false. congruence.
Qed.

Lemma classNames_arg_dict_cons (k : string) (v : jsval)
    (d : list (string * jsval)) :
  classNames_arg (CDict ((k, v) :: d))
  = (if truthy v then [k] else []) ++ classNames_arg (CDict d).
Proof.
  simpl. rewrite filter_cons. simpl.
  destruct (truthy v); by case_decide.
Qed.

(** C8: with a kind outside the style tokens a Banner renders (no step of
    it can raise) and the modifier mapping of its root switches on none of
    the kind classes; with an orient that is neither token a Legend
    renders with neither orientation class. *)
Theorem unrecognized_enum_emits_no_modifier_class :
  (∀ p : Banner.IBannerProps,
     (∀ t, t ∈ kind_tokens → Banner.kind p ≠ VStr t) →
     let displayedIcon :=
       if truthy (Banner.icon p) then Banner.icon p else VNull in
     (∀ c, c ∈ kind_classes →
           c ∉ classNames [CDict (Banner.modifiers p displayedIcon)])
     ∧ (truthy (Banner.isClosed p) = false →
        ∃ sec, Banner.group_child (Banner.Banner p) = Some sec
          ∧ Banner.section_className sec
            = Banner.cx [CStr "&";
                         CDict [("&-has-icon", displayedIcon);
                                ("&-has-close", Banner.isCloseable p);
                                ("&-small", Banner.isSmall p);
                                ("&-filled", Banner.isFilled p)];
                         CVal (Banner.className p)]))
  ∧ (∀ p : Legend.ILegendProps,
       Legend.orient p ≠ VStr "horizontal" →
       Legend.orient p ≠ VStr "vertical" →
       Legend.ul_className (Legend.Legend p)
       = Legend.cx [CStr "&";
                    CDict [("&-has-borders", Legend.hasBorders p);
                           ("&-is-reversed", Legend.isReversed p)];
                    CVal (Legend.className p)]).
Proof.
  split.
  - intros p Hk displayedIcon.
    assert (Hf : ∀ t, t ∈ kind_tokens →
                      strict_eq_str (Banner.kind p) t = false).
    { intros t Ht. apply strict_eq_str_ne. by apply Hk. }
    assert (Hm : classNames_arg (CDict (Banner.modifiers p displayedIcon))
                 = classNames_arg
                     (CDict [("&-has-icon", displayedIcon);
                             ("&-has-close", Banner.isCloseable p);
                             ("&-small", Banner.isSmall p);
                             ("&-filled", Banner.isFilled p)])).
    { unfold Banner.modifiers.
      rewrite !Hf
        by (unfold kind_tokens;
            repeat first [apply list_elem_of_here | apply list_elem_of_further]).
      by rewrite !classNames_arg_dict_cons. }
    split.
    + intros c Hc. unfold classNames. rewrite bind_cons, Hm.
      rewrite !classNames_arg_dict_cons. unfold kind_classes in Hc.
      elem_cases Hc;
        destruct (truthy displayedIcon), (truthy (Banner.isCloseable p)),
          (truthy (Banner.isSmall p)), (truthy (Banner.isFilled p));
        cbn [app]; intros Hin; not_among Hin.
    + intros Hclosed. unfold Banner.Banner. cbn [Banner.group_child].
      rewrite Hclosed. cbn [negb]. eexists. split; [done|].
      cbn [Banner.section_className].
      unfold Banner.cx, lucidClassNames_bind, classNames.
      rewrite !bind_cons. fold displayedIcon. by rewrite Hm.
  - intros p Hh Hv. unfold Legend.Legend. cbn [Legend.ul_className].
    rewrite (strict_eq_str_ne _ _ Hh), (strict_eq_str_ne _ _ Hv).
    unfold Legend.cx, lucidClassNames_bind, classNames.
    rewrite !bind_cons. by rewrite !classNames_arg_dict_cons.
Qed.

Lemma unrecognized_enum_emits_no_modifier_class_witness :
  (∃ sec, Banner.group_child (Banner.Banner (sample_banner (VStr "fancy")))
          = Some sec
     ∧ Banner.section_className sec
       = "lucid-Banner lucid-Banner-has-close lucid-Banner-filled top")
  ∧ Legend.ul_className (Legend.Legend (sample_legend "diagonal"))
    = "lucid-Legend lucid-Legend-has-borders".
Proof.
  destruct unrecognized_enum_emits_no_modifier_class as [HB HL].
  split.
  - destruct (HB (sample_banner (VStr "fancy"))) as [_ H].
    + intros t Ht. unfold kind_tokens in Ht. elem_cases Ht; discriminate.
    + apply H. reflexivity.
  - apply (HL (sample_legend "diagonal")); discriminate.
Defined.

(** ** Points: the render map *)

Section PointsRender.
Import Points.
Variable StringToNumber : string → num.
Variable paths : lodash_paths.

Lemma sequence_Ok {A} (l : list (result A)) (xs : list A) :
  sequence l = Ok xs ↔ l = Ok <$> xs.
Proof.
  revert xs. induction l as [|r l IH]; intros xs; simpl.
  - split.
    + intros [= <-]. done.
    + destruct xs; [done | discriminate].
  - destruct r as [a|]; simpl.
    + destruct (sequence l) as [ys|] eqn:Hs; simpl.
      * split.
        -- intros [= <-]. csimpl. f_equal. by apply IH.
        -- destruct xs as [|x xs]; [discriminate|]. csimpl.
           intros [= -> Hl]. apply IH in Hl. by injection Hl as ->.
      * split; [discriminate|].
        destruct xs as [|x xs]; [discriminate|]. csimpl.
        intros [= -> Hl]. apply IH in Hl. discriminate.
    + split; [discriminate|]. destruct xs; discriminate.
Qed.

Lemma sequence_total {A} (l : list (result A)) :
  Forall (λ r, ∃ a, r = Ok a) l → ∃ xs, sequence l = Ok xs.
Proof.
  induction 1 as [|r l [a ->] _ [xs IH]]; simpl.
  - by eexists.
  - rewrite IH. by eexists.
Qed.

Lemma offsetNone_from_length (n : nat) (s0 : list (num * num))
    (rest : list (list (num * num))) :
  length s0 = n →
  Forall (λ s, length s = n) rest →
  Forall (λ s, length s = n) (offsetNone_from s0 rest).
Proof.
  intros Hs0 Hrest. revert s0 Hs0.
  induction Hrest as [|s1 rest Hs1 _ IH]; intros s0 Hs0; simpl.
  - constructor.
  - assert (length (zip_with offset_pair s0 s1) = n) as Hz.
    { rewrite length_zip_with. lia. }
    constructor; [done | by apply IH].
Qed.

(** Both transforms keep one entry per row in every series. *)
Lemma transformedData_row_length (p : IPointsProps) :
  Forall (λ d, length d = length (data p)) (transformedData StringToNumber p).
Proof.
  unfold transformedData. destruct (truthy (isStacked p)).
  - unfold d3_stack. apply Forall_fmap.
    assert (Forall (λ s : list (num * num), length s = length (data p))
              (offsetNone (stack_init StringToNumber (yFields p) (data p))))
      as H.
    { unfold stack_init.
      destruct (yFields p) as [|k ks]; simpl; [constructor|].
      constructor; [by rewrite length_map|].
      apply offsetNone_from_length; [by rewrite length_map|].
      apply Forall_fmap, Forall_forall. intros key _. simpl.
      by rewrite length_map. }
    eapply Forall_impl; [exact H|]. intros s Hs. simpl.
    by rewrite length_map.
  - unfold groupByFields. apply Forall_fmap, Forall_forall.
    intros field _. simpl. by rewrite length_map.
Qed.

Lemma renderSeries_in_range (p : IPointsProps) (dIndex j : nat) (s : series) :
  (j < length (data p))%nat →
  ∃ m, renderSeries StringToNumber paths p dIndex j s = Ok m
       ∧ (isValidSeries s = false → m = None)
       ∧ (isValidSeries s = true →
          ∃ pt, m = Some pt ∧ pt_color pt = color_of paths p dIndex).
Proof.
  intros Hj. unfold renderSeries.
  destruct (lookup_lt_is_Some_2 _ _ Hj) as [row Hrow]. rewrite Hrow.
  destruct (isValidSeries s).
  - eexists. split; [done|]. split; [done|]. intros _. by eexists.
  - eexists. split; [done|]. split; [done|]. done.
Qed.

(** The render never raises, and every position of the transformed data
    holds what [renderSeries] returned for it. *)
Lemma Points_marks (p : IPointsProps) :
  ∃ out, Points StringToNumber paths p = Ok out
    ∧ length (g_marks out) = length (transformedData StringToNumber p)
    ∧ ∀ dIndex d, transformedData StringToNumber p !! dIndex = Some d →
        ∃ ms, g_marks out !! dIndex = Some ms
          ∧ length ms = length d
          ∧ ∀ j s, d !! j = Some s →
              ∃ m, ms !! j = Some m
                   ∧ renderSeries StringToNumber paths p dIndex j s = Ok m.
Proof.
  unfold Points.
  set (td := transformedData StringToNumber p).
  assert (Hlen := transformedData_row_length p). fold td in Hlen.
  assert (Hinner : ∀ dIndex d, td !! dIndex = Some d →
            ∃ ms, sequence (imap (renderSeries StringToNumber paths p dIndex) d)
                  = Ok ms).
  { intros dIndex d Hd. apply sequence_total, Forall_lookup.
    intros j r Hr. rewrite list_lookup_imap in Hr.
    destruct (d !! j) as [s|] eqn:Hs; [|discriminate].
    injection Hr as <-.
    destruct (renderSeries_in_range p dIndex j s) as (m & Hm & _).
    - rewrite <- (Forall_lookup_1 _ _ _ _ Hlen Hd).
      by apply lookup_lt_Some in Hs.
    - by eexists. }
  destruct (sequence_total
              (imap (λ dIndex d,
                       sequence
                         (imap (renderSeries StringToNumber paths p dIndex)
                               d))
                    td)) as [marks Hmarks].
  { apply Forall_lookup. intros dIndex r Hr. rewrite list_lookup_imap in Hr.
    destruct (td !! dIndex) as [d|] eqn:Hd; [|discriminate].
    injection Hr as <-. destruct (Hinner dIndex d Hd) as [ms Hms].
    by eexists. }
  rewrite Hmarks. eexists. split; [done|]. cbn [g_marks].
  apply sequence_Ok in Hmarks.
  split.
  { apply (f_equal length) in Hmarks.
    by rewrite length_imap, length_fmap in Hmarks. }
  intros dIndex d Hd.
  apply (f_equal (λ l, l !! dIndex)) in Hmarks.
  rewrite list_lookup_imap, list_lookup_fmap, Hd in Hmarks.
  destruct (marks !! dIndex) as [ms|] eqn:Hms; [|discriminate].
  injection Hmarks as Hmarks. apply sequence_Ok in Hmarks.
  exists ms. split; [done|]. split.
  { apply (f_equal length) in Hmarks.
    by rewrite length_imap, length_fmap in Hmarks. }
  intros j s Hs.
  apply (f_equal (λ l, l !! j)) in Hmarks.
  rewrite list_lookup_imap, list_lookup_fmap, Hs in Hmarks.
  destruct (ms !! j) as [m|] eqn:Hm; [|discriminate].
  injection Hmarks as Hmarks. by exists m.
Qed.

End PointsRender.

Lemma isValidSeries_terminal (s : Points.series) :
  Points.isValidSeries s
  = Points.isFinite (terminal s) || Points.isDate (terminal s).
Proof. by destruct s. Qed.

(** C7: the render returns; a series occurrence whose terminal value is
    neither a finite number nor a date gets no mark, and every occurrence
    whose terminal value is one gets its mark, whatever the other
    occurrences hold.  Without stacking the occurrence of field [dIndex] in
    row [j] is that field of the row. *)
Theorem Points_malformed_series_skipped (StringToNumber : string → num)
    (paths : Points.lodash_paths) (p : Points.IPointsProps) :
  ∃ out, Points.Points StringToNumber paths p = Points.Ok out
    ∧ (∀ dIndex d j s,
         Points.transformedData StringToNumber p !! dIndex = Some d →
         d !! j = Some s →
         (Points.isFinite (terminal s) = false →
          Points.isDate (terminal s) = false →
          mark_at out dIndex j = Some None)
         ∧ (Points.isFinite (terminal s) || Points.isDate (terminal s) = true →
            ∃ pt, mark_at out dIndex j = Some (Some pt)))
    ∧ (truthy (Points.isStacked p) = false →
       ∀ dIndex field j row,
         Points.yFields p !! dIndex = Some field →
         Points.data p !! j = Some row →
         (Points.isFinite (get field row) = false →
          Points.isDate (get field row) = false →
          mark_at out dIndex j = Some None)
         ∧ (Points.isFinite (get field row) || Points.isDate (get field row)
            = true →
            ∃ pt, mark_at out dIndex j = Some (Some pt))).
Proof.
  destruct (Points_marks StringToNumber paths p) as (out & Hout & _ & Hmarks).
  exists out. split; [done|].
  assert (Hpos : ∀ dIndex d j s,
            Points.transformedData StringToNumber p !! dIndex = Some d →
            d !! j = Some s →
            (Points.isFinite (terminal s) = false →
             Points.isDate (terminal s) = false →
             mark_at out dIndex j = Some None)
            ∧ (Points.isFinite (terminal s) || Points.isDate (terminal s)
               = true →
               ∃ pt, mark_at out dIndex j = Some (Some pt))).
  { intros dIndex d j s Hd Hs.
    destruct (Hmarks dIndex d Hd) as (ms & Hms & Hlen & Hrow).
    destruct (Hrow j s Hs) as (m & Hm & Hr).
    assert (Hj : (j < length (Points.data p))%nat).
    { rewrite <- (Forall_lookup_1 _ _ _ _
                    (transformedData_row_length StringToNumber p) Hd).
      by apply lookup_lt_Some in Hs. }
    destruct (renderSeries_in_range StringToNumber paths p dIndex j s Hj)
      as (m' & Hm' & Hbad & Hgood).
    rewrite Hr in Hm'. injection Hm' as <-.
    unfold mark_at. rewrite Hms. simpl. rewrite Hm.
    rewrite isValidSeries_terminal in Hbad, Hgood. split.
    - intros Hf Hd'. rewrite Hbad; [done|]. by rewrite Hf, Hd'.
    - intros Hv. destruct (Hgood Hv) as (pt & -> & _). by eexists. }
  split; [exact Hpos|].
  intros Hgrouped dIndex field j row Hfield Hrow.
  apply (Hpos dIndex
           (map (λ d, Points.SVal (get field d)) (Points.data p))
           j (Points.SVal (get field row))).
  - unfold Points.transformedData, Points.groupByFields. rewrite Hgrouped.
    by rewrite list_lookup_fmap, Hfield.
  - by rewrite list_lookup_fmap, Hrow.
Qed.

Lemma Points_malformed_series_skipped_witness :
  ∃ out,
    Points.Points no_numeric_strings plain_paths
      (sample_points false VUndef 0 ["y0"; "y1"] rows_with_bad_value)
    = Points.Ok out
    ∧ mark_at out 0 1 = Some None
    ∧ (∃ pt, mark_at out 0 0 = Some (Some pt))
    ∧ (∃ pt, mark_at out 1 1 = Some (Some pt)).
Proof.
  destruct (Points_malformed_series_skipped no_numeric_strings plain_paths
              (sample_points false VUndef 0 ["y0"; "y1"] rows_with_bad_value))
    as (out & Hout & _ & Hg).
  exists out. split; [exact Hout|].
  specialize (Hg eq_refl).
  split; [|split].
  - apply (Hg 0%nat "y0" 1%nat
             (num_row "b" [("y0", VStr "n/a"); ("y1", VNum (Fin 1))])
             eq_refl eq_refl); reflexivity.
  - apply (Hg 0%nat "y0" 0%nat
             (num_row "a" [("y0", VNum (Fin 1)); ("y1", VNum (Fin 2))])
             eq_refl eq_refl); reflexivity.
  - apply (Hg 1%nat "y1" 1%nat
             (num_row "b" [("y0", VStr "n/a"); ("y1", VNum (Fin 1))])
             eq_refl eq_refl); reflexivity.
Defined.

(** ** Points: colors *)

(** C10: the index into the palette is taken with the remainder of the
    language, whose sign is the sign of the dividend.  With colorOffset -3
    and two colors the index of series 2 is -1: the render returns, the mark
    of the series has no color, and the palette holds "blue" at the modular
    index 1. *)
Theorem Points_color_negative_offset_reads_outside
    (paths : Points.lodash_paths) :
  ∃ out pt,
    Points.Points no_numeric_strings paths
      (sample_points false VUndef (-3) ["y0"; "y1"; "y2"] three_series_row)
    = Points.Ok out
    ∧ mark_at out 2 0 = Some (Some pt)
    ∧ Points.pt_color pt = VUndef
    ∧ num_rem (num_add (Fin 2) (Fin (-3))) (Fin 2) = Fin (-1)
    ∧ ["red"; "blue"] !! Z.to_nat ((2 + -3) `mod` 2) = Some "blue".
Proof.
  eexists _, _. split; [reflexivity|]. split; [reflexivity|].
  split; [reflexivity|]. split; reflexivity.
Qed.

(** A field named like a member every object inherits gets that member
    as its color, whatever the palette holds. *)
Example Points_color_inherited_member (paths : Points.lodash_paths) :
  Points.color_of paths
    (sample_points false VUndef 0 ["constructor"] three_series_row) 0
  = VFun "Object.prototype.constructor".
Proof. reflexivity. Qed.

(** ** Points: stacking, row by row *)

Lemma length_offsetNone_from (s0 : list (num * num))
    (rest : list (list (num * num))) :
  length (Points.offsetNone_from s0 rest) = length rest.
Proof.
  revert s0. induction rest as [|s1 rest IH]; intros s0; [done|].
  simpl. by rewrite IH.
Qed.

Section PointsRows.
Import Points.
Variable StringToNumber : string → num.
Variable data : list (gmap string jsval).
Variable j : nat.
Variable row : gmap string jsval.
Hypothesis Hrow : data !! j = Some row.

Lemma lookup_offsetNone_from (ks : list string) (s0 : list (num * num))
    (p0 : num * num) (d : nat) :
  s0 !! j = Some p0 →
  offsetNone_from s0
    (map (λ key,
            map (λ d, (Fin 0, ToNumber StringToNumber (stackValue d key)))
                data) ks) !! d
    ≫= (λ s, s !! j)
  = stack_row_from p0 (row_values StringToNumber ks row) !! d.
Proof.
  revert s0 p0 d. induction ks as [|k ks IH]; intros s0 p0 d Hp0; [done|].
  cbn [map offsetNone_from row_values fmap list_fmap stack_row_from].
  assert (Hz : zip_with offset_pair s0
                 (map (λ d, (Fin 0, ToNumber StringToNumber (stackValue d k)))
                      data) !! j
               = Some (offset_pair p0
                         (Fin 0, ToNumber StringToNumber (stackValue row k)))).
  { rewrite lookup_zip_with, Hp0. simpl.
    change (map ?f ?l) with (f <$> l). by rewrite list_lookup_fmap, Hrow. }
  destruct d as [|d]; [exact Hz|].
  apply (IH _ _ d Hz).
Qed.

(** The pair of series [d] for the row is the [d]-th pair of the stack of
    the row alone: rows are stacked independently. *)
Lemma lookup_stack (fields : list string) (d : nat) :
  offsetNone (stack_init StringToNumber fields data) !! d ≫= (λ s, s !! j)
  = stack_row (row_values StringToNumber fields row) !! d.
Proof.
  destruct fields as [|k0 ks]; [done|].
  unfold stack_init.
  cbn [map offsetNone row_values fmap list_fmap stack_row].
  assert (H0 : map (λ d, (Fin 0, ToNumber StringToNumber (stackValue d k0)))
                   data !! j
               = Some (Fin 0, ToNumber StringToNumber (stackValue row k0))).
  { change (map ?f ?l) with (f <$> l). by rewrite list_lookup_fmap, Hrow. }
  destruct d as [|d]; [exact H0|].
  apply (lookup_offsetNone_from ks _ _ d H0).
Qed.

Lemma length_stack_row_from (p0 : num * num) (vs : list num) :
  length (stack_row_from p0 vs) = length vs.
Proof.
  revert p0. induction vs as [|v vs IH]; intros p0; [done|].
  simpl. by rewrite IH.
Qed.

Lemma length_stack_row (vs : list num) : length (stack_row vs) = length vs.
Proof. destruct vs; [done|]. simpl. by rewrite length_stack_row_from. Qed.

End PointsRows.

(** The series at a position of the stacked data. *)
Lemma transformedData_stacked (StringToNumber : string → num)
    (p : Points.IPointsProps) (d j : nat) (row : gmap string jsval)
    (pr : num * num) :
  truthy (Points.isStacked p) = true →
  Points.data p !! j = Some row →
  stack_row (row_values StringToNumber (Points.yFields p) row) !! d
  = Some pr →
  ∃ ds, Points.transformedData StringToNumber p !! d = Some ds
        ∧ ds !! j = Some (Points.SArr [VNum pr.1; VNum pr.2]).
Proof.
  intros Hs Hrow Hpr.
  rewrite <- (lookup_stack StringToNumber (Points.data p) j row Hrow) in Hpr.
  unfold Points.transformedData, Points.d3_stack. rewrite Hs.
  change (map ?f ?l) with (f <$> l) at 1. rewrite list_lookup_fmap.
  destruct (Points.offsetNone _ !! d) as [layer|]; [|discriminate].
  simpl in Hpr. eexists. split; [done|].
  change (map ?f ?l) with (f <$> l). by rewrite list_lookup_fmap, Hpr.
Qed.

Lemma length_row_values (StringToNumber : string → num)
    (fields : list string) (row : gmap string jsval) :
  length (row_values StringToNumber fields row) = length fields.
Proof. unfold row_values. by rewrite length_fmap. Qed.

(** Stacking a row whose running sums are numbers pairs each running sum
    with the one before it. *)
Lemma stack_row_from_sums (p0 : num * num) (vs : list num) :
  isNaN p0.2 = false →
  Forall (λ s, isNaN s = false) (sums_from p0.2 vs) →
  stack_row_from p0 vs = zip (p0.2 :: sums_from p0.2 vs) (sums_from p0.2 vs).
Proof.
  revert p0. induction vs as [|v vs IH]; intros [lo up] Hup Hs; [done|].
  cbn [fst snd] in *. cbn [sums_from] in Hs.
  apply Forall_cons in Hs as [Hs1 Hs].
  cbn [stack_row_from sums_from]. unfold Points.offset_pair at 1 2.
  cbn [fst snd]. rewrite Hup.
  rewrite (IH (up, num_add v up) Hs1 Hs). done.
Qed.

Lemma stack_row_sums (vs : list num) :
  Forall (λ s, isNaN s = false) (running_sums vs) →
  stack_row vs = zip (Fin 0 :: running_sums vs) (running_sums vs).
Proof.
  destruct vs as [|v vs]; [done|]. cbn [running_sums stack_row].
  intros Hs. apply Forall_cons in Hs as [Hv Hs].
  by rewrite (stack_row_from_sums (Fin 0, v) vs Hv Hs).
Qed.

Lemma length_sums_from (acc : num) (vs : list num) :
  length (sums_from acc vs) = length vs.
Proof.
  revert acc. induction vs as [|v vs IH]; intros acc; [done|].
  simpl. by rewrite IH.
Qed.

Lemma length_running_sums (vs : list num) :
  length (running_sums vs) = length vs.
Proof. destruct vs; [done|]. simpl. by rewrite length_sums_from. Qed.

Lemma sums_from_removelast (acc : num) (vs : list num) :
  sums_from acc (removelast vs) = removelast (sums_from acc vs).
Proof.
  revert acc. induction vs as [|v vs IH]; intros acc; [done|].
  destruct vs as [|v' vs]; [done|].
  change (removelast (v :: v' :: vs)) with (v :: removelast (v' :: vs)).
  cbn [sums_from]. rewrite IH. done.
Qed.

Lemma running_sums_removelast (vs : list num) :
  running_sums (removelast vs) = removelast (running_sums vs).
Proof.
  destruct vs as [|v vs]; [done|]. destruct vs as [|v' vs]; [done|].
  change (removelast (v :: v' :: vs)) with (v :: removelast (v' :: vs)).
  cbn [running_sums]. rewrite sums_from_removelast. done.
Qed.

Lemma Forall_removelast {A} (P : A → Prop) (l : list A) :
  Forall P l → Forall P (removelast l).
Proof.
  induction 1 as [|x l Hx Hl IH]; [constructor|].
  destruct l as [|y l]; [constructor|].
  change (removelast (x :: y :: l)) with (x :: removelast (y :: l)).
  by constructor.
Qed.

Lemma cumulative_not_NaN (vs : list num) :
  Forall (λ s, isNaN s = false) (running_sums vs) →
  isNaN (cumulative vs) = false ∧ isNaN (cumulative (removelast vs)) = false.
Proof.
  assert (H : ∀ l, Forall (λ s, isNaN s = false) l →
                   isNaN (default (Fin 0) (last l)) = false).
  { intros l Hl. destruct (last l) as [s|] eqn:Hlast; [|done].
    apply last_Some_elem_of in Hlast. simpl.
    by apply (proj1 (Forall_forall _ _) Hl). }
  intros Hs. unfold cumulative. split; [by apply H|].
  rewrite running_sums_removelast. by apply H, Forall_removelast.
Qed.

Lemma default_last_cons {A} (a x : A) (l : list A) :
  default a (last (x :: l)) = default x (last l).
Proof.
  destruct l as [|y l]; [done|]. rewrite last_cons_cons.
  destruct (last (y :: l)) eqn:H; [done|]. by apply last_None in H.
Qed.

(** The last pair of a list paired with itself shifted by one. *)
Lemma last_zip_shift {A} (a : A) (l : list A) :
  l ≠ [] →
  last (zip (a :: l) l)
  = Some (default a (last (removelast l)), default a (last l)).
Proof.
  revert a. induction l as [|x l IH]; intros a Hne; [done|].
  destruct l as [|y l]; [done|].
  change (zip (a :: x :: y :: l) (x :: y :: l))
    with ((a, x) :: (x, y) :: zip (y :: l) l).
  rewrite last_cons_cons.
  change ((x, y) :: zip (y :: l) l) with (zip (x :: y :: l) (y :: l)).
  rewrite (IH x) by done.
  change (removelast (x :: y :: l)) with (x :: removelast (y :: l)).
  by rewrite !default_last_cons.
Qed.

(** The top pair of the stack of a row. *)
Lemma last_stack_row (vs : list num) :
  vs ≠ [] →
  Forall (λ s, isNaN s = false) (running_sums vs) →
  last (stack_row vs) = Some (cumulative (removelast vs), cumulative vs).
Proof.
  intros Hne Hs. rewrite (stack_row_sums vs Hs).
  rewrite last_zip_shift.
  - unfold cumulative. by rewrite running_sums_removelast.
  - intros Hnil. apply (f_equal length) in Hnil.
    rewrite length_running_sums in Hnil. by destruct vs.
Qed.

(** ** Points: the stacked domain *)

Section PointsStacked.
Import Points.
Variable StringToNumber : string → num.

Lemma stack_layers_length (keys : list string)
    (data : list (gmap string jsval)) :
  Forall (λ s : list (num * num), length s = length data)
    (offsetNone (stack_init StringToNumber keys data)).
Proof.
  unfold stack_init. destruct keys as [|k ks]; simpl; [constructor|].
  constructor; [by rewrite length_map|].
  apply offsetNone_from_length; [by rewrite length_map|].
  apply Forall_fmap, Forall_forall. intros key _. simpl.
  by rewrite length_map.
Qed.

Lemma length_stack (keys : list string) (data : list (gmap string jsval)) :
  length (offsetNone (stack_init StringToNumber keys data)) = length keys.
Proof.
  unfold stack_init. destruct keys as [|k ks]; [done|]. simpl.
  by rewrite length_offsetNone_from, length_map.
Qed.

(** The top series of the stack: over every row, from the cumulative sum
    of the fields before the last to the cumulative sum of them all. *)
Lemma last_stack (fields : list string) (data : list (gmap string jsval)) :
  fields ≠ [] →
  (∀ row, row ∈ data →
     Forall (λ s, isNaN s = false)
       (running_sums (row_values StringToNumber fields row))) →
  last (offsetNone (stack_init StringToNumber fields data))
  = Some ((λ row, (cumulative
                     (removelast (row_values StringToNumber fields row)),
                   cumulative (row_values StringToNumber fields row)))
          <$> data).
Proof.
  intros Hne Hnum.
  set (L := offsetNone (stack_init StringToNumber fields data)).
  assert (HL : length L = length fields) by apply length_stack.
  rewrite last_lookup.
  destruct (L !! pred (length L)) as [top|] eqn:Htop.
  2:{ apply lookup_ge_None in Htop. rewrite HL in Htop.
      destruct fields; [done|]. simpl in Htop. lia. }
  f_equal. apply list_eq. intros j. rewrite list_lookup_fmap.
  assert (Hlen : length top = length data).
  { exact (Forall_lookup_1 _ _ _ _ (stack_layers_length fields data) Htop). }
  destruct (data !! j) as [row|] eqn:Hrow; simpl.
  - assert (H := lookup_stack StringToNumber data j row Hrow fields
                   (pred (length L))).
    fold L in H. rewrite Htop in H. simpl in H. rewrite H.
    assert (Hin : row ∈ data) by (by eapply list_elem_of_lookup_2).
    rewrite <- (last_stack_row _
                  (λ Hnil, Hne (nil_length_inv _
                     (eq_trans (eq_sym (length_row_values _ _ _))
                               (f_equal length Hnil))))
                  (Hnum row Hin)).
    rewrite last_lookup, length_stack_row, length_row_values, HL. done.
  - apply lookup_ge_None. apply lookup_ge_None in Hrow. lia.
Qed.

Lemma flatten_layer {A} (f g : A → num) (rows : list A) :
  flatten_series
    ((λ p : num * num, SArr [VNum p.1; VNum p.2])
       <$> ((λ d, (f d, g d)) <$> rows))
  = VNum <$> (rows ≫= λ d, [f d; g d]).
Proof.
  unfold flatten_series. induction rows as [|d rows IH]; [done|].
  csimpl. by rewrite IH.
Qed.

Lemma max_step_num (m x : num) :
  max_step StringToNumber (Some (VNum m)) (VNum x)
  = Some (VNum (if num_gt x m then x else m)).
Proof.
  unfold max_step, js_gt. cbn [ToNumber]. by destruct (num_gt x m).
Qed.

(** Folding [_.max] over numbers from the number [m] on keeps a greatest
    one. *)
Lemma foldl_max_step_greatest (l : list num) (m : num) :
  ∃ m', foldl (max_step StringToNumber) (Some (VNum m)) (VNum <$> l)
        = Some (VNum m')
      ∧ (m' = m ∨ m' ∈ l)
      ∧ (∀ y, num_gt y m = false → num_gt y m' = false)
      ∧ (∀ x, x ∈ l → num_gt x m' = false).
Proof.
  revert m. induction l as [|x l IH]; intros m.
  { exists m. split; [done|]. split; [by left|]. split; [done|].
    intros x Hx. by apply elem_of_nil in Hx. }
  rewrite fmap_cons. cbn [foldl]. rewrite max_step_num.
  destruct (num_gt x m) eqn:Hgt.
  - destruct (IH x) as (m' & Hm' & Hin & Hmono & Hall).
    exists m'. split; [done|]. split.
    { right. destruct Hin as [-> | Hin];
        [apply list_elem_of_here | by apply list_elem_of_further]. }
    split.
    + intros y Hy. apply Hmono.
      destruct (num_gt y x) eqn:Hyx; [|done].
      by rewrite (num_gt_trans y x m Hyx Hgt) in Hy.
    + intros z Hz. apply elem_of_cons in Hz as [-> | Hz]; [|by apply Hall].
      apply Hmono, num_gt_irrefl.
  - destruct (IH m) as (m' & Hm' & Hin & Hmono & Hall).
    exists m'. split; [done|]. split.
    { destruct Hin as [-> | Hin]; [by left|].
      right. by apply list_elem_of_further. }
    split; [done|].
    intros z Hz. apply elem_of_cons in Hz as [-> | Hz]; [|by apply Hall].
    by apply Hmono.
Qed.

(** [_.max] of numbers of which the first is not NaN: one of them, and
    none of them is greater. *)
Lemma lodash_max_greatest (x : num) (l : list num) :
  isNaN x = false →
  ∃ m, lodash_max StringToNumber (VNum <$> (x :: l)) = VNum m
     ∧ m ∈ x :: l
     ∧ ∀ y, y ∈ x :: l → num_gt y m = false.
Proof.
  intros Hx. unfold lodash_max. rewrite fmap_cons. cbn [foldl].
  assert (max_step StringToNumber None (VNum x) = Some (VNum x)) as ->.
  { by destruct x. }
  destruct (foldl_max_step_greatest l x) as (m & Hm & Hin & Hmono & Hall).
  exists m. rewrite Hm. split; [done|]. split.
  - destruct Hin as [-> | Hin];
      [apply list_elem_of_here | by apply list_elem_of_further].
  - intros y Hy. apply elem_of_cons in Hy as [-> | Hy]; [|by apply Hall].
    apply Hmono, num_gt_irrefl.
Qed.

(** The bound computed for the stacked domain: [_.max] over both edges of
    the top layer of every row. *)
Lemma stacked_computed_bound (p : IPointsProps) :
  truthy (isStacked p) = true →
  truthy (yStackedMax p) = false →
  yFields p ≠ [] →
  (∀ row, row ∈ data p →
     Forall (λ s, isNaN s = false)
       (running_sums (row_values StringToNumber (yFields p) row))) →
  upper_bound StringToNumber p
  = Some (lodash_max StringToNumber
            (VNum <$> (data p ≫= λ row,
                         top_edges
                           (row_values StringToNumber (yFields p) row)))).
Proof.
  intros Hs Hmax Hne Hnum.
  unfold upper_bound, rescaled. rewrite Hs.
  cbn [set_domain domain lookup list_lookup].
  unfold js_or. rewrite Hmax. f_equal.
  unfold transformedData, d3_stack. rewrite Hs.
  change (map ?f ?l) with (f <$> l) at 1.
  rewrite fmap_last, (last_stack _ _ Hne Hnum).
  change (default [] (?f <$> Some ?x)) with (f x).
  by rewrite (flatten_layer
                (λ row, cumulative
                          (removelast
                             (row_values StringToNumber (yFields p) row)))
                (λ row, cumulative
                          (row_values StringToNumber (yFields p) row))).
Qed.

(** Over at least one row the computed bound is one of the edges, and no
    edge is greater. *)
Lemma stacked_bound_greatest (p : IPointsProps) :
  truthy (isStacked p) = true →
  truthy (yStackedMax p) = false →
  yFields p ≠ [] →
  (∀ row, row ∈ data p →
     Forall (λ s, isNaN s = false)
       (running_sums (row_values StringToNumber (yFields p) row))) →
  data p ≠ [] →
  ∃ m, upper_bound StringToNumber p = Some (VNum m)
    ∧ m ∈ (data p ≫= λ row,
             top_edges (row_values StringToNumber (yFields p) row))
    ∧ ∀ x, x ∈ (data p ≫= λ row,
                  top_edges (row_values StringToNumber (yFields p) row)) →
           num_gt x m = false.
Proof.
  intros Hs Hf Hne Hnum Hdata.
  rewrite (stacked_computed_bound p Hs Hf Hne Hnum).
  destruct (data p) as [|row rows] eqn:Hd; [done|].
  rewrite bind_cons. unfold top_edges at 1 3 5. cbn [app].
  destruct (lodash_max_greatest
              (cumulative
                 (removelast (row_values StringToNumber (yFields p) row)))
              (cumulative (row_values StringToNumber (yFields p) row)
               :: (rows ≫= λ row,
                     top_edges (row_values StringToNumber (yFields p) row))))
    as (m & Hm & Hin & Hall).
  { apply cumulative_not_NaN, Hnum, list_elem_of_here. }
  exists m. by rewrite Hm.
Qed.

End PointsStacked.

(** C2, as the code has it: stacked, with at least one y field, the upper
    bound of the y domain is a truthy yStackedMax, verbatim; otherwise,
    over rows whose running sums are numbers, it is the greatest of the
    edges of the top layer, that is, over all rows, of the cumulative sum
    of all the y fields and of the cumulative sum of all but the last:
    one of these sums, and none of them is greater.  With no row it is
    undefined. *)
Theorem Points_stacked_upper_bound (StringToNumber : string → num)
    (p : Points.IPointsProps) :
  truthy (Points.isStacked p) = true →
  Points.yFields p ≠ [] →
  (∀ row, row ∈ Points.data p →
     Forall (λ s, isNaN s = false)
       (running_sums (row_values StringToNumber (Points.yFields p) row))) →
  (truthy (Points.yStackedMax p) = true →
   upper_bound StringToNumber p = Some (Points.yStackedMax p))
  ∧ (truthy (Points.yStackedMax p) = false →
     (Points.data p = [] → upper_bound StringToNumber p = Some VUndef)
     ∧ (Points.data p ≠ [] →
        ∃ m, upper_bound StringToNumber p = Some (VNum m)
          ∧ m ∈ (Points.data p ≫= λ row,
                   top_edges
                     (row_values StringToNumber (Points.yFields p) row))
          ∧ ∀ x, x ∈ (Points.data p ≫= λ row,
                        top_edges
                          (row_values StringToNumber (Points.yFields p) row)) →
                 num_gt x m = false)).
Proof.
  intros Hstacked Hne Hnum. split.
  - intros Ht. unfold upper_bound, Points.rescaled. rewrite Hstacked.
    cbn [Points.set_domain Points.domain lookup list_lookup].
    unfold js_or. by rewrite Ht.
  - intros Hf. split.
    + intros Hdata.
      rewrite (stacked_computed_bound StringToNumber p Hstacked Hf Hne Hnum).
      by rewrite Hdata.
    + by apply stacked_bound_greatest.
Qed.

Lemma Points_stacked_upper_bound_witness :
  upper_bound no_numeric_strings
    (sample_points true VUndef 0 ["y0"; "y1"] stacking_rows)
  = Some (VNum (Fin 4))
  ∧ upper_bound no_numeric_strings
      (sample_points true (VNum (Fin 10)) 0 ["y0"; "y1"] stacking_rows)
    = Some (VNum (Fin 10)).
Proof.
  assert (Hnum : ∀ row, row ∈ stacking_rows →
            Forall (λ s, isNaN s = false)
              (running_sums (row_values no_numeric_strings ["y0"; "y1"] row))).
  { intros row Hr. unfold stacking_rows in Hr.
    elem_cases Hr; vm_compute; repeat constructor. }
  split.
  - destruct (Points_stacked_upper_bound no_numeric_strings
                (sample_points true VUndef 0 ["y0"; "y1"] stacking_rows)
                eq_refl) as [_ H]; [discriminate | exact Hnum |].
    destruct (H eq_refl) as [_ H'].
    destruct H' as (m & Hm & Hin & Hall); [discriminate|].
    rewrite Hm. do 2 f_equal.
    assert (H4 : num_gt (Fin 4) m = false).
    { apply Hall. vm_compute. do 3 apply list_elem_of_further.
      apply list_elem_of_here. }
    vm_compute in Hin.
    elem_cases Hin; vm_compute in H4; (discriminate || reflexivity).
  - destruct (Points_stacked_upper_bound no_numeric_strings
                (sample_points true (VNum (Fin 10)) 0 ["y0"; "y1"]
                   stacking_rows)
                eq_refl) as [H _]; [discriminate | exact Hnum |].
    apply H; reflexivity.
Defined.

(** With a row whose last field is negative the bound is not the greatest
    cumulative sum of the y fields: for [{x:'a', y0:5, y1:-2}] it is 5, and
    the cumulative sum of the row is 3. *)
Lemma Points_stacked_bound_above_cumulative_max :
  upper_bound no_numeric_strings
    (sample_points true VUndef 0 ["y0"; "y1"] falling_row)
  = Some (VNum (Fin 5))
  ∧ (λ row, cumulative (row_values no_numeric_strings ["y0"; "y1"] row))
      <$> falling_row
    = [Fin 3]
  ∧ num_gt (Fin 5) (Fin 3) = true.
Proof. split; [reflexivity|]. split; reflexivity. Qed.

(** A yStackedMax of 0 is not taken as the bound. *)
Example Points_stacked_zero_override :
  upper_bound no_numeric_strings
    (sample_points true (VNum (Fin 0)) 0 ["y0"; "y1"] stacking_rows)
  = Some (VNum (Fin 4)).
Proof. reflexivity. Qed.

(** * Further properties of the components *)

(** ** Legend: rows and indicators *)

Section LegendRows.
Import Legend.

Lemma omap_as_slot_drop (T : component) (n : node) (l1 l2 : list node) :
  ¬ carries T n →
  omap (as_slot T) (l1 ++ n :: l2) = omap (as_slot T) (l1 ++ l2).
Proof.
  intros Hn. rewrite !omap_app. csimpl.
  by rewrite (proj2 (as_slot_None T n) Hn).
Qed.

(** A row of the rendered list is the row of some extracted item. *)
Lemma Legend_row_inv (p : ILegendProps) (row : li) :
  row ∈ ul_items (Legend p) →
  ∃ i item, itemProps p !! i = Some item
    ∧ row = renderItem (itemProps p)
              (strict_eq_str (orient p) "vertical"
               && existsb (λ item, truthy (get "hasLine" item)) (itemProps p))
              i item.
Proof.
  unfold Legend. cbn [ul_items]. intros Hrow.
  apply elem_of_lookup_imap in Hrow as (i & item & -> & Hi). eauto.
Qed.

(** X1: a child that is not a Legend.Item (a text, another element)
    leaves no trace in the Legend: the output is the same without it. *)
Theorem Legend_renders_only_items (p : ILegendProps) (c' : ReactNode)
    (n : node) (l1 l2 : list node) :
  ¬ carries LegendItem n →
  flatten (children p) = l1 ++ n :: l2 →
  flatten c' = l1 ++ l2 →
  Legend (with_legend_children c' p) = Legend p.
Proof.
  intros Hn Hc Hc'.
  assert (Hitems : itemProps (with_legend_children c' p) = itemProps p).
  { unfold itemProps, findTypes. cbn [children with_legend_children].
    by rewrite Hc, Hc', omap_as_slot_drop. }
  unfold Legend. rewrite Hitems. done.
Qed.

Lemma Legend_renders_only_items_witness :
  Legend (with_legend_children
            (Seq [legendItem false true VUndef;
                  legendItem true false (VFun "onSelect")])
            (sample_legend "vertical"))
  = Legend (sample_legend "vertical").
Proof.
  apply (Legend_renders_only_items (sample_legend "vertical") _
           (Text "caption")
           [Elem (Element LegendItem
                    (<["hasLine" := VBool false]> (<["hasPoint" := VBool true]>
                       (<["onClick" := VUndef]> ∅))))]
           [Elem (Element LegendItem
                    (<["hasLine" := VBool true]> (<["hasPoint" := VBool false]>
                       (<["onClick" := VFun "onSelect"]> ∅))))]).
  - intros H. exact H.
  - reflexivity.
  - reflexivity.
Defined.

(** X3: a row has an indicator exactly when its item has a point or a
    line; the indicator then holds a point mark exactly when the item has a
    point and a line mark exactly when it has a line; the content of the row
    is the content of the item. *)
Theorem Legend_indicator_presence (p : ILegendProps) (i : nat)
    (item : gmap string jsval) :
  itemProps p !! i = Some item →
  ∃ row, ul_items (Legend p) !! i = Some row
    ∧ li_children row = get "children" item
    ∧ (indicator row = None ↔
       truthy (get "hasPoint" item) = false
       ∧ truthy (get "hasLine" item) = false)
    ∧ (∀ s, indicator row = Some s →
         (is_Some (svg_point s) ↔ truthy (get "hasPoint" item) = true)
         ∧ (is_Some (svg_line s) ↔ truthy (get "hasLine" item) = true)).
Proof.
  intros Hi. eexists. split; [by apply Legend_row|].
  cbn [renderItem indicator li_children]. split; [done|].
  destruct (truthy (get "hasPoint" item)), (truthy (get "hasLine" item));
    cbn [orb]; (split; [split; [done | by intros [? ?]] |]);
    intros s Hs; try discriminate; injection Hs as <-;
    cbn [svg_point svg_line]; split; split;
    first [done | by intros [? ?] | by eexists].
Qed.

Lemma Legend_indicator_presence_witness :
  ∃ row, ul_items (Legend (sample_legend "vertical")) !! 0%nat = Some row
    ∧ ∃ s, indicator row = Some s
           ∧ is_Some (svg_point s) ∧ svg_line s = None.
Proof.
  destruct (Legend_indicator_presence (sample_legend "vertical") 0
              (<["hasLine" := VBool false]> (<["hasPoint" := VBool true]>
                 (<["onClick" := VUndef]> ∅))) eq_refl)
    as (row & Hrow & _ & _ & Hs).
  exists row. split; [exact Hrow|].
  pose proof Hrow as Hr. vm_compute in Hr. injection Hr as <-.
  eexists. split; [reflexivity|]. split; [by eexists | reflexivity].
Defined.

(** X4: every indicator is 12 high and 12 or 22 wide and holds at least
    one mark; its point sits at the centre of the svg; its line is the
    segment from (0, 6) to (22, 6), and an svg with a line is 22 wide, so
    the line never leaves it. *)
Theorem Legend_indicator_geometry (p : ILegendProps) (row : li) (s : svg) :
  row ∈ ul_items (Legend p) →
  indicator row = Some s →
  height s = 12
  ∧ (width s = 12 ∨ width s = 22)
  ∧ (is_Some (svg_point s) ∨ is_Some (svg_line s))
  ∧ (∀ pt, svg_point s = Some pt →
           2 * pt_x pt = width s ∧ 2 * pt_y pt = height s)
  ∧ (∀ ln, svg_line s = Some ln →
           width s = 22 ∧ ln_d ln = "M0,6 L22,6").
Proof.
  intros Hrow Hs.
  apply Legend_row_inv in Hrow as (i & item & _ & ->).
  revert Hs. cbn [renderItem indicator].
  generalize (strict_eq_str (orient p) "vertical"
              && existsb (λ item, truthy (get "hasLine" item)) (itemProps p)).
  intros some.
  destruct (truthy (get "hasPoint" item)), (truthy (get "hasLine" item)),
    some; cbn [orb]; intros Hs; try discriminate; injection Hs as <-;
    cbn [height width svg_point svg_line];
    (split; [done|]); (split; [by (left + right)|]);
    (split; [by (left + right); eexists|]);
    (split; [intros pt Hpt | intros ln Hln]);
    try discriminate;
    first [injection Hpt as <- | injection Hln as <-]; by vm_compute.
Qed.

Lemma Legend_indicator_geometry_witness :
  ∃ row s, ul_items (Legend (sample_legend "horizontal")) !! 0%nat = Some row
    ∧ indicator row = Some s
    ∧ height s = 12
    ∧ ∀ pt, svg_point s = Some pt → 2 * pt_x pt = width s.
Proof.
  eexists _, _. split; [reflexivity|]. split; [reflexivity|].
  destruct (Legend_indicator_geometry (sample_legend "horizontal") _ _
              (list_elem_of_here _ _) eq_refl) as (Hh & _ & _ & Hpt & _).
  split; [exact Hh|]. intros pt Hp. apply (Hpt pt Hp).
Defined.

End LegendRows.

(** ** Legend: clicks and defaults *)

Lemma dflt_idem (v d : jsval) : dflt (dflt v d) d = dflt v d.
Proof. by destruct v, d. Qed.

Section LegendClicks.
Import Legend.

(** X5: what a click on a row does is decided by the item's onClick
    alone: nothing when it is falsy (undefined, null, false, 0, the empty
    string), one call when it is a function, and a TypeError when it is any
    other value. *)
Theorem Legend_click_outcomes (p : ILegendProps) (i : nat)
    (item : gmap string jsval) (ev : event) :
  itemProps p !! i = Some item →
  ∃ row, ul_items (Legend p) !! i = Some row
    ∧ (truthy (get "onClick" item) = false → onClick row ev = Returns [])
    ∧ (∀ f, get "onClick" item = VFun f →
            onClick row ev = Returns [Call f (Some i) item ev])
    ∧ (truthy (get "onClick" item) = true →
       (∀ f, get "onClick" item ≠ VFun f) →
       onClick row ev = Throws).
Proof.
  intros Hi.
  destruct (Legend_row_onClick p i item ev Hi) as (row & Hrow & _ & Hc).
  exists row. split; [done|]. rewrite Hc. unfold handleItemClick.
  split; [|split].
  - intros ->. done.
  - intros f ->. done.
  - intros -> Hnf. cbn [negb].
    destruct (get "onClick" item); try done. by destruct (Hnf name).
Qed.

Lemma Legend_click_outcomes_witness :
  ∃ row,
    ul_items (Legend (with_legend_children
                        (Seq [Leaf (Elem (Element LegendItem
                                            (clickable (VStr "select"))));
                              Leaf (Elem (Element LegendItem
                                            (clickable VNull)))])
                        (sample_legend "vertical"))) !! 0%nat = Some row
    ∧ onClick row (MouseEvent 1) = Throws.
Proof.
  destruct (Legend_click_outcomes
              (with_legend_children
                 (Seq [Leaf (Elem (Element LegendItem
                                     (clickable (VStr "select"))));
                       Leaf (Elem (Element LegendItem (clickable VNull)))])
                 (sample_legend "vertical"))
              0 (clickable (VStr "select")) (MouseEvent 1) eq_refl)
    as (row & Hrow & _ & _ & Ht).
  exists row. split; [exact Hrow|].
  apply Ht; [reflexivity | discriminate].
Defined.

(** X6: filling in the defaults is idempotent and changes no attribute
    that was supplied: className, children and the pass-through attributes
    are kept as they are, and orient, hasBorders and isReversed are kept
    unless undefined, in which case they become "vertical", true and
    false.  A Legend whose orient was left out is rendered vertical: it has
    the vertical class, not the horizontal one, and one item with a line
    widens every indicator. *)
Theorem Legend_defaultProps_vertical (p : ILegendProps) :
  defaultProps (defaultProps p) = defaultProps p
  ∧ (className (defaultProps p) = className p
     ∧ children (defaultProps p) = children p
     ∧ passThroughs (defaultProps p) = passThroughs p)
  ∧ ((orient p ≠ VUndef → orient (defaultProps p) = orient p)
     ∧ (hasBorders p ≠ VUndef → hasBorders (defaultProps p) = hasBorders p)
     ∧ (isReversed p ≠ VUndef → isReversed (defaultProps p) = isReversed p))
  ∧ ((orient p = VUndef → orient (defaultProps p) = VStr "vertical")
     ∧ (hasBorders p = VUndef → hasBorders (defaultProps p) = VBool true)
     ∧ (isReversed p = VUndef → isReversed (defaultProps p) = VBool false))
  ∧ (orient p = VUndef →
     ul_className (Legend (defaultProps p))
     = cx [CStr "&";
           CDict [("&-is-vertical", VBool true);
                  ("&-has-borders", hasBorders (defaultProps p));
                  ("&-is-reversed", isReversed (defaultProps p))];
           CVal (className p)]
     ∧ (Exists (λ item, truthy (get "hasLine" item) = true) (itemProps p) →
        ∀ row s, row ∈ ul_items (Legend (defaultProps p)) →
                 indicator row = Some s → width s = 22)).
Proof.
  split; [|split; [|split; [|split]]].
  - unfold defaultProps.
    cbn [className orient hasBorders isReversed children passThroughs].
    by rewrite !dflt_idem.
  - done.
  - unfold defaultProps.
    cbn [className orient hasBorders isReversed children passThroughs].
    split; [|split]; intros H.
    + by destruct (orient p).
    + by destruct (hasBorders p).
    + by destruct (isReversed p).
  - unfold defaultProps.
    cbn [className orient hasBorders isReversed children passThroughs].
    split; [|split]; by intros ->.
  - intros Ho. split.
    + unfold Legend. cbn [ul_className orient defaultProps className].
      rewrite Ho. cbn [dflt strict_eq_str].
      unfold cx, lucidClassNames_bind, classNames.
      rewrite !bind_cons. by rewrite !classNames_arg_dict_cons.
    + intros Hex row s Hrow Hs.
      apply Legend_row_inv in Hrow as (i & item & _ & ->).
      revert Hs. cbn [renderItem indicator].
      assert (itemProps (defaultProps p) = itemProps p) as -> by done.
      rewrite (existsb_Exists_truthy _ Hex).
      cbn [orient defaultProps]. rewrite Ho. cbn [dflt strict_eq_str].
      destruct (truthy (get "hasPoint" item) || truthy (get "hasLine" item));
        [|discriminate].
      intros [= <-]. cbn [width]. by rewrite orb_true_r.
Qed.

Lemma Legend_defaultProps_vertical_witness :
  ul_className
    (Legend (defaultProps
               (bare_legend (Seq [legendItem true false VUndef]))))
  = "lucid-Legend lucid-Legend-is-vertical lucid-Legend-has-borders"
  ∧ hasBorders (defaultProps (sample_legend "horizontal")) = VBool true
  ∧ isReversed (defaultProps (with_isReversed (VBool true)
                                (sample_legend "horizontal")))
    = VBool true
  ∧ orient (defaultProps (sample_legend "horizontal")) = VStr "horizontal".
Proof.
  destruct (Legend_defaultProps_vertical
              (bare_legend (Seq [legendItem true false VUndef])))
    as (_ & _ & _ & _ & H).
  destruct (H eq_refl) as [Hc _]. split; [exact Hc|].
  destruct (Legend_defaultProps_vertical (sample_legend "horizontal"))
    as (_ & _ & (Ho & Hb & _) & _).
  destruct (Legend_defaultProps_vertical
              (with_isReversed (VBool true) (sample_legend "horizontal")))
    as (_ & _ & (_ & _ & Hr) & _).
  split; [|split].
  - rewrite Hb; [reflexivity | discriminate].
  - rewrite Hr; [reflexivity | discriminate].
  - rewrite Ho; [reflexivity | discriminate].
Defined.

End LegendClicks.

(** ** Banner *)

Section BannerProperties.
Import Banner.

(** X7: a Banner of one of the five styled kinds has the class of that
    kind and of no other kind, between the close and the size modifiers;
    the kind 'default' has no kind class. *)
Theorem Banner_kind_class_exact (p : IBannerProps) (displayedIcon : jsval) :
  (∀ t, t ∈ styled_kinds → kind p = VStr t →
     classNames [CDict (modifiers p displayedIcon)]
     = classNames [CDict [("&-has-icon", displayedIcon);
                          ("&-has-close", isCloseable p);
                          ("&-" +:+ t, VBool true);
                          ("&-small", isSmall p);
                          ("&-filled", isFilled p)]]
     ∧ ∀ c, c ∈ kind_classes →
            (c ∈ classNames [CDict (modifiers p displayedIcon)]
             ↔ c = "&-" +:+ t))
  ∧ (kind p = VStr "default" →
     ∀ c, c ∈ kind_classes →
          c ∉ classNames [CDict (modifiers p displayedIcon)]).
Proof.
  assert (Hnil : classNames_arg (CDict []) = []) by done.
  split.
  - intros t Ht Hk. unfold styled_kinds in Ht.
    unfold classNames. rewrite !bind_cons. unfold modifiers. rewrite Hk.
    rewrite !classNames_arg_dict_cons, Hnil.
    elem_cases Ht; eval_strict_eq; cbn [truthy];
      (split; [done|]); intros c Hc; unfold kind_classes in Hc;
      elem_cases Hc;
      destruct (truthy displayedIcon), (truthy (isCloseable p)),
        (truthy (isSmall p)), (truthy (isFilled p));
      cbn [app mbind list_bind];
      (split;
       [intros Hin; first [reflexivity | not_among Hin]
       | intros Heq; vm_compute in Heq;
         first [discriminate
               | repeat first [apply list_elem_of_here
                              | apply list_elem_of_further]]]).
  - intros Hk c Hc. unfold kind_classes in Hc.
    unfold classNames. rewrite !bind_cons. unfold modifiers. rewrite Hk.
    rewrite !classNames_arg_dict_cons, Hnil.
    eval_strict_eq; cbn [truthy].
    elem_cases Hc;
      destruct (truthy displayedIcon), (truthy (isCloseable p)),
        (truthy (isSmall p)), (truthy (isFilled p));
      cbn [app mbind list_bind]; intros Hin; not_among Hin.
Qed.

Lemma Banner_kind_class_exact_witness :
  "&-warning" ∈ classNames
                  [CDict (modifiers (sample_banner (VStr "warning")) VNull)]
  ∧ "&-danger" ∉ classNames
                   [CDict (modifiers (sample_banner (VStr "warning")) VNull)].
Proof.
  destruct (Banner_kind_class_exact (sample_banner (VStr "warning")) VNull)
    as [H _].
  destruct (H "warning") as [_ Hc].
  - unfold styled_kinds.
    repeat first [apply list_elem_of_here | apply list_elem_of_further].
  - reflexivity.
  - split.
    + apply Hc; [|reflexivity]. unfold kind_classes.
      repeat first [apply list_elem_of_here | apply list_elem_of_further].
    + intros Hin. apply Hc in Hin; [vm_compute in Hin; discriminate|].
      unfold kind_classes.
      repeat first [apply list_elem_of_here | apply list_elem_of_further].
Defined.

(** X8: a closed Banner renders nothing inside the transition group; an
    open one has a close icon exactly when it is closeable, and a click on
    the icon calls onClose once with [{ event, props }] for the props of the
    icon, or raises when onClose is not a function. *)
Theorem Banner_close_click (p : IBannerProps) :
  (truthy (isClosed p) = true → group_child (Banner p) = None)
  ∧ (truthy (isClosed p) = false →
     ∃ sec, group_child (Banner p) = Some sec
       ∧ (truthy (isCloseable p) = false → close sec = None)
       ∧ (truthy (isCloseable p) = true →
          ∃ c, close sec = Some c
            ∧ (∀ f ev props, onClose p = VFun f →
                 close_onClick c ev props = Returns [Call f None props ev])
            ∧ (∀ ev props, (∀ f, onClose p ≠ VFun f) →
                 close_onClick c ev props = Throws))).
Proof.
  split.
  - intros Hc. unfold Banner. cbn [group_child]. by rewrite Hc.
  - intros Hc. unfold Banner. cbn [group_child]. rewrite Hc. cbn [negb].
    eexists. split; [done|]. cbn [close]. split.
    + intros ->. done.
    + intros ->. eexists. split; [done|]. cbn [close_onClick]. split.
      * intros f ev props ->. done.
      * intros ev props Hnf. destruct (onClose p); try done.
        by destruct (Hnf name).
Qed.

Lemma Banner_close_click_witness :
  ∃ sec c, group_child (Banner (sample_banner (VStr "info"))) = Some sec
    ∧ close sec = Some c
    ∧ close_onClick c (MouseEvent 3) ∅
      = Returns [Call "_.noop" None ∅ (MouseEvent 3)].
Proof.
  destruct (Banner_close_click (sample_banner (VStr "info"))) as [_ H].
  destruct (H eq_refl) as (sec & Hsec & _ & Hc).
  destruct (Hc eq_refl) as (c & Hclose & Hf & _).
  exists sec, c. split; [exact Hsec|]. split; [exact Hclose|].
  apply Hf. reflexivity.
Defined.

(** X9: filling in the defaults is idempotent, and a Banner that leaves
    its optional attributes out is rendered open, without an icon, filled
    and closeable, with no kind class; a click on its close icon calls the
    no-op and does not raise. *)
Theorem Banner_defaultProps_render (p : IBannerProps) :
  defaultProps (defaultProps p) = defaultProps p
  ∧ (icon p = VUndef → kind p = VUndef → isCloseable p = VUndef →
     isClosed p = VUndef → isFilled p = VUndef → isSmall p = VUndef →
     onClose p = VUndef →
     ∃ sec c, group_child (Banner (defaultProps p)) = Some sec
       ∧ section_className sec
         = cx [CStr "&";
               CDict [("&-has-close", VBool true); ("&-filled", VBool true)];
               CVal (className p)]
       ∧ icon_span sec = None
       ∧ close sec = Some c
       ∧ ∀ ev props,
           close_onClick c ev props = Returns [Call "_.noop" None props ev]).
Proof.
  split.
  - unfold defaultProps.
    cbn [icon kind className children isCloseable isClosed isFilled isSmall
         onClose passThroughs].
    by rewrite !dflt_idem.
  - intros Hi Hk Hc Hcl Hf Hs Ho.
    unfold Banner, defaultProps.
    cbn [icon kind className children isCloseable isClosed isFilled isSmall
         onClose passThroughs group_child].
    rewrite Hi, Hk, Hc, Hcl, Hf, Hs, Ho. cbn [dflt truthy negb].
    eexists _, _. split; [done|].
    cbn [section_className icon_span close close_onClick invoke].
    split; [|done].
    unfold cx, lucidClassNames_bind, classNames, modifiers.
    rewrite !bind_cons.
    cbn [icon kind className children isCloseable isClosed isFilled isSmall
         onClose passThroughs].
    eval_strict_eq. by rewrite !classNames_arg_dict_cons.
Qed.

Lemma Banner_defaultProps_render_witness :
  ∃ sec, group_child (Banner (defaultProps bare_banner)) = Some sec
    ∧ section_className sec
      = "lucid-Banner lucid-Banner-has-close lucid-Banner-filled".
Proof.
  destruct (Banner_defaultProps_render bare_banner) as [_ H].
  destruct (H eq_refl eq_refl eq_refl eq_refl eq_refl eq_refl eq_refl)
    as (sec & c & Hsec & Hcls & _).
  exists sec. split; [exact Hsec|]. rewrite Hcls. reflexivity.
Defined.

End BannerProperties.

(** ** Panel: regions and content *)

Section PanelRegions.
Import Panel.

(** The attributes of a region: those of the slot instance, with the class
    name composed of the name of the region and the class name of the
    instance. *)
Lemma region_lookup (name : string) (childProp : gmap string jsval) :
  (∀ k, k ≠ "className" → region name childProp !! k = childProp !! k)
  ∧ region name childProp !! "className"
    = Some (VStr (cx [CStr name; CVal (get "className" childProp)])).
Proof.
  unfold region. split.
  - intros k Hk. by rewrite lookup_insert_ne.
  - by rewrite lookup_insert_eq.
Qed.

(** X11: the header region forwards every attribute of the first
    Panel.Header but the class name; its class name is the header class
    alone when the instance has none, and the header class followed by the
    class name of the instance when it has one: neither is dropped.  The
    footer region does the same with the first Panel.Footer. *)
Theorem Panel_region_forwards_props (p : IPanelProps) (T : component)
    (name : string) (first : element) (rest : list element) :
  (T = PanelHeader ∧ name = "Header") ∨ (T = PanelFooter ∧ name = "Footer") →
  findTypes (children p) T = first :: rest →
  ∃ r, (if decide (T = PanelHeader) then header (Panel p)
        else footer (Panel p)) = Some r
    ∧ (∀ k, k ≠ "className" → r !! k = props first !! k)
    ∧ (get "className" (props first) = VUndef →
       r !! "className" = Some (VStr ("lucid-Panel-" +:+ name)))
    ∧ (∀ c, get "className" (props first) = VStr c → c ≠ EmptyString →
            r !! "className"
            = Some (VStr ("lucid-Panel-" +:+ name +:+ " "
                          +:+ replace_amp "lucid-Panel" c))).
Proof.
  intros HT Hf.
  destruct HT as [[-> ->] | [-> ->]]; cbn [decide]; unfold Panel;
    cbn [header footer]; rewrite Hf; csimpl; (eexists; split; [done|]);
    destruct (region_lookup "&-Header" (props first)) as [Hk Hc];
    destruct (region_lookup "&-Footer" (props first)) as [Hk' Hc'];
    (split; [done|]); (split; [intros Hu | intros c Hcls Hne]).
  - rewrite Hc, Hu. done.
  - rewrite Hc, Hcls. unfold cx, lucidClassNames_bind, classNames. csimpl.
    by rewrite bool_decide_eq_false_2.
  - rewrite Hc', Hu. done.
  - rewrite Hc', Hcls. unfold cx, lucidClassNames_bind, classNames. csimpl.
    by rewrite bool_decide_eq_false_2.
Qed.

Lemma Panel_region_forwards_props_witness :
  ∃ r, footer (Panel (sample_panel [Leaf (Elem (panelFooter "sticky &-x"))]))
       = Some r
    ∧ r !! "children" = Some (VNode "done")
    ∧ r !! "className"
      = Some (VStr "lucid-Panel-Footer sticky lucid-Panel-x").
Proof.
  destruct (Panel_region_forwards_props
              (sample_panel [Leaf (Elem (panelFooter "sticky &-x"))])
              PanelFooter "Footer" (panelFooter "sticky &-x") [])
    as (r & Hr & Hk & _ & Hc).
  - right. split; reflexivity.
  - reflexivity.
  - exists r. split; [exact Hr|]. split.
    + rewrite Hk; [reflexivity | discriminate].
    + rewrite (Hc "sticky &-x"); [reflexivity | reflexivity | discriminate].
Defined.

Lemma render_children_omap (c : ReactNode) :
  render_children c = omap dom_of (flatten c).
Proof.
  unfold render_children. induction (flatten c) as [|n l IH]; [done|].
  rewrite bind_cons, IH. csimpl.
  destruct n as [e|s]; simpl; [|done]. by destruct (type e).
Qed.

Lemma count_markers (l : list node) :
  (length (omap dom_of l) + count_tagged LegendItem l
   + count_tagged PanelHeader l + count_tagged PanelFooter l)%nat
  = length l.
Proof.
  induction l as [|n l IH]; [done|]. csimpl.
  destruct n as [e|s]; simpl.
  - destruct e as [[| | |name] attrs]; simpl; repeat case_decide;
      simpl in *; try congruence; lia.
  - lia.
Qed.

(** X12: the content region renders every child that is not a slot
    marker, once and in order, and no slot marker: a Panel.Header, a
    Panel.Footer or a Legend.Item among the children renders nothing
    there. *)
Theorem Panel_content_without_markers (p : IPanelProps) :
  section_children (mount (Panel p)) = omap dom_of (flatten (children p))
  ∧ (length (section_children (mount (Panel p)))
     + count_tagged LegendItem (flatten (children p))
     + count_tagged PanelHeader (flatten (children p))
     + count_tagged PanelFooter (flatten (children p)))%nat
    = length (flatten (children p)).
Proof.
  unfold mount, Panel. cbn [section_children].
  rewrite render_children_omap. split; [done|]. apply count_markers.
Qed.

End PanelRegions.

(** ** Points: the marks *)

Section PointsMarks.
Import Points.
Variable StringToNumber : string → num.
Variable paths : lodash_paths.

(** Both transforms return one series per y field. *)
Lemma length_transformedData (p : IPointsProps) :
  length (transformedData StringToNumber p) = length (yFields p).
Proof.
  unfold transformedData. destruct (truthy (isStacked p)).
  - unfold d3_stack, stack_init. rewrite length_map.
    destruct (yFields p) as [|k ks]; [done|]. simpl.
    by rewrite length_offsetNone_from, length_map.
  - unfold groupByFields. by rewrite length_map.
Qed.

(** What is rendered at one position of the transformed data. *)
Lemma mark_at_series (p : IPointsProps) (out : g) (dIndex j : nat)
    (ds : list series) (s : series) (row : gmap string jsval) :
  Points StringToNumber paths p = Ok out →
  transformedData StringToNumber p !! dIndex = Some ds →
  ds !! j = Some s →
  data p !! j = Some row →
  mark_at out dIndex j
  = Some (if isValidSeries s
          then Some (point_at paths p (rescaled StringToNumber p) dIndex j row
                       (terminal s))
          else None).
Proof.
  intros Hout Hds Hs Hrow.
  destruct (Points_marks StringToNumber paths p) as (out' & Hout' & _ & Hmarks).
  rewrite Hout in Hout'. injection Hout' as <-.
  destruct (Hmarks dIndex ds Hds) as (ms & Hms & _ & Hpos).
  destruct (Hpos j s Hs) as (m & Hm & Hr).
  unfold mark_at. rewrite Hms. simpl. rewrite Hm. f_equal.
  unfold renderSeries in Hr. rewrite Hrow in Hr.
  destruct (isValidSeries s); by injection Hr as <-.
Qed.

Lemma Points_returns (p : IPointsProps) :
  ∃ out, Points StringToNumber paths p = Ok out.
Proof.
  destruct (Points_marks StringToNumber paths p) as (out & H & _). eauto.
Qed.

End PointsMarks.

(** X14: the marks form a grid with one list per y field and, in each
    list, one entry per row of the data, in both modes. *)
Theorem Points_marks_shape (StringToNumber : string → num)
    (paths : Points.lodash_paths) (p : Points.IPointsProps) :
  ∃ out, Points.Points StringToNumber paths p = Points.Ok out
    ∧ length (Points.g_marks out) = length (Points.yFields p)
    ∧ Forall (λ ms, length ms = length (Points.data p)) (Points.g_marks out).
Proof.
  destruct (Points_marks StringToNumber paths p)
    as (out & Hout & Hlen & Hmarks).
  exists out. split; [done|]. split.
  - by rewrite Hlen, length_transformedData.
  - apply Forall_lookup. intros d ms Hms.
    destruct (Points.transformedData StringToNumber p !! d) as [ds|] eqn:Hds.
    + destruct (Hmarks d ds Hds) as (ms' & Hms' & Hl & _).
      rewrite Hms in Hms'. injection Hms' as <-. rewrite Hl.
      exact (Forall_lookup_1 _ _ _ _
               (transformedData_row_length StringToNumber p) Hds).
    + apply lookup_ge_None in Hds. apply lookup_lt_Some in Hms. lia.
Qed.



(** ** Points: the marks of a stack *)

Lemma isValidSeries_pair (lo hi : num) :
  Points.isValidSeries (Points.SArr [VNum lo; VNum hi])
  = Points.isFinite (VNum hi).
Proof. unfold Points.isValidSeries. simpl. by rewrite orb_false_r. Qed.





(** ** Points: values that are not numbers, in a stack *)

Lemma stack_row_from_shape (p0 : num * num) (vs : list num) (d : nat)
    (pr : num * num) :
  Points.isFinite (VNum p0.1) = true →
  not_infinite p0.2 →
  Forall (λ pr, not_infinite pr.2) (stack_row_from p0 vs) →
  stack_row_from p0 vs !! d = Some pr →
  ∃ v, vs !! d = Some v ∧ isNaN pr.2 = isNaN v.
Proof.
  revert p0 d. induction vs as [|v vs IH]; intros p0 d Hlo Hup Hall Hpr;
    [discriminate|].
  cbn [stack_row_from] in Hpr, Hall.
  apply Forall_cons in Hall as [Hhi Hall].
  set (p1 := Points.offset_pair p0 (Fin 0, v)) in *.
  assert (Hlo' : Points.isFinite (VNum p1.1) = true).
  { unfold p1, Points.offset_pair. cbn [fst snd].
    destruct p0 as [lo up]. cbn [fst snd] in *. by destruct up. }
  assert (Hnan : isNaN p1.2 = isNaN v).
  { revert Hhi Hlo'. unfold p1, Points.offset_pair. cbn [fst snd].
    intros Hhi Hlo'.
    destruct v as [sv|sv| |sv mv ev].
    - by apply num_add_finite_not_NaN.
    - exfalso. revert Hhi.
      by destruct (if isNaN p0.2 then p0.1 else p0.2).
    - done.
    - by apply num_add_finite_not_NaN. }
  destruct d as [|d].
  - injection Hpr as <-. by exists v.
  - apply (IH p1 d Hlo' Hhi Hall Hpr).
Qed.

Lemma stack_row_shape (vs : list num) (d : nat) (pr : num * num) :
  Forall (λ pr, not_infinite pr.2) (stack_row vs) →
  stack_row vs !! d = Some pr →
  ∃ v, vs !! d = Some v ∧ isNaN pr.2 = isNaN v.
Proof.
  destruct vs as [|v vs]; [discriminate|]. cbn [stack_row].
  intros Hall Hpr. apply Forall_cons in Hall as [Hv Hall].
  destruct d as [|d].
  - injection Hpr as <-. by exists v.
  - by apply (stack_row_from_shape (Fin 0, v) vs d pr).
Qed.

(** X18: stacked, in a row in which no value and no sum of the stack is
    infinite, the mark of a field is left out exactly when the field does
    not convert to a number (a missing value, a text that is not numeric),
    and that changes nothing for the other fields of the row: each field
    that converts to a number has its mark. *)
Theorem Points_stacked_skips_non_numbers (StringToNumber : string → num)
    (paths : Points.lodash_paths) (p : Points.IPointsProps) (j : nat)
    (row : gmap string jsval) :
  truthy (Points.isStacked p) = true →
  Points.data p !! j = Some row →
  Forall (λ pr, not_infinite pr.2)
    (stack_row (row_values StringToNumber (Points.yFields p) row)) →
  ∃ out, Points.Points StringToNumber paths p = Points.Ok out
    ∧ ∀ dIndex field,
        Points.yFields p !! dIndex = Some field →
        (isNaN (Points.ToNumber StringToNumber (get field row)) = false →
         ∃ pt, mark_at out dIndex j = Some (Some pt))
        ∧ (isNaN (Points.ToNumber StringToNumber (get field row)) = true →
           mark_at out dIndex j = Some None).
Proof.
  intros Hs Hrow Hvs.
  destruct (Points_returns StringToNumber paths p) as [out Hout].
  exists out. split; [done|]. intros d f Hf.
  assert (Hv : row_values StringToNumber (Points.yFields p) row !! d
               = Some (Points.ToNumber StringToNumber (get f row))).
  { unfold row_values. by rewrite list_lookup_fmap, Hf. }
  destruct (stack_row (row_values StringToNumber (Points.yFields p) row) !! d)
    as [pr|] eqn:Hpr.
  2:{ apply lookup_ge_None in Hpr. rewrite length_stack_row in Hpr.
      apply lookup_lt_Some in Hv. lia. }
  destruct (stack_row_shape _ _ _ Hvs Hpr) as (v & Hv' & Hnan).
  rewrite Hv in Hv'. injection Hv' as <-.
  assert (Hfin := Forall_lookup_1 _ _ _ _ Hvs Hpr). cbn beta in Hfin.
  destruct (transformedData_stacked StringToNumber p d j row pr Hs Hrow Hpr)
    as (ds & Hds & Hser).
  rewrite (mark_at_series StringToNumber paths p out d j ds _ row
             Hout Hds Hser Hrow).
  rewrite isValidSeries_pair, <- Hnan. split.
  - intros Hn. destruct pr.2; try done; by eexists.
  - intros Hn. by destruct pr.2.
Qed.

Lemma Points_stacked_skips_non_numbers_witness :
  ∃ out,
    Points.Points seven_only plain_paths
      (sample_points true VUndef 0 ["y0"; "y1"; "y2"] rows_with_gap)
    = Points.Ok out
    ∧ mark_at out 1 0 = Some None
    ∧ (∃ pt, mark_at out 2 0 = Some (Some pt)).
Proof.
  destruct (Points_stacked_skips_non_numbers seven_only plain_paths
              (sample_points true VUndef 0 ["y0"; "y1"; "y2"] rows_with_gap)
              0 (num_row "a" [("y0", VNum (Fin 1)); ("y2", VNum (Fin 4))])
              eq_refl eq_refl) as (out & Hout & H).
  - vm_compute. repeat constructor.
  - exists out. split; [exact Hout|]. split.
    + apply (H 1%nat "y1" eq_refl). reflexivity.
    + apply (H 2%nat "y2" eq_refl). reflexivity.
Defined.

(** ** Points: keys and the override of the bound *)

Lemma string_length_app (s t : string) :
  String.length (s +:+ t) = (String.length s + String.length t)%nat.
Proof. induction s as [|a s IH]; [done|]. simpl. by rewrite IH. Qed.

Lemma string_app_inj_r (s1 s2 t : string) :
  s1 +:+ t = s2 +:+ t → s1 = s2.
Proof.
  revert s2. induction s1 as [|a s1 IH]; intros [|b s2] H.
  - done.
  - change (t = String b (s2 +:+ t)) in H.
    apply (f_equal String.length) in H.
    change (String.length t = S (String.length (s2 +:+ t))) in H.
    rewrite (string_length_app s2 t) in H. lia.
  - change (String a (s1 +:+ t) = t) in H.
    apply (f_equal String.length) in H.
    change (S (String.length (s1 +:+ t)) = String.length t) in H.
    rewrite (string_length_app s1 t) in H. lia.
  - change (String a (s1 +:+ t) = String b (s2 +:+ t)) in H.
    injection H as -> H. f_equal. by apply IH.
Qed.

Lemma mark_at_key (StringToNumber : string → num)
    (paths : Points.lodash_paths) (p : Points.IPointsProps)
    (out : Points.g) (dIndex j : nat) (pt : Points.PointEl) :
  Points.Points StringToNumber paths p = Points.Ok out →
  mark_at out dIndex j = Some (Some pt) →
  Points.pt_key pt = pretty j +:+ pretty dIndex.
Proof.
  intros Hout Hmark.
  destruct (Points_marks StringToNumber paths p)
    as (out' & Hout' & Hlen & Hmarks).
  rewrite Hout in Hout'. injection Hout' as <-.
  unfold mark_at in Hmark.
  destruct (Points.g_marks out !! dIndex) as [ms|] eqn:Hms; [|discriminate].
  simpl in Hmark.
  destruct (Points.transformedData StringToNumber p !! dIndex) as [d|] eqn:Hd.
  2:{ apply lookup_ge_None in Hd. apply lookup_lt_Some in Hms. lia. }
  destruct (Hmarks dIndex d Hd) as (ms' & Hms' & Hl & Hpos).
  rewrite Hms in Hms'. injection Hms' as <-.
  destruct (d !! j) as [s|] eqn:Hs.
  2:{ apply lookup_ge_None in Hs. apply lookup_lt_Some in Hmark. lia. }
  destruct (Hpos j s Hs) as (m & Hm & Hr).
  rewrite Hmark in Hm. injection Hm as <-.
  unfold Points.renderSeries in Hr.
  destruct (Points.isValidSeries s); [|discriminate].
  destruct (Points.data p !! j); [|discriminate].
  injection Hr as <-. done.
Qed.

(** X19: within one series the keys of the marks are pairwise distinct:
    the marks of two different rows never have the same key. *)
Theorem Points_keys_distinct_in_series (StringToNumber : string → num)
    (paths : Points.lodash_paths) (p : Points.IPointsProps) (out : Points.g)
    (dIndex j1 j2 : nat) (pt1 pt2 : Points.PointEl) :
  Points.Points StringToNumber paths p = Points.Ok out →
  mark_at out dIndex j1 = Some (Some pt1) →
  mark_at out dIndex j2 = Some (Some pt2) →
  j1 ≠ j2 →
  Points.pt_key pt1 ≠ Points.pt_key pt2.
Proof.
  intros Hout H1 H2 Hne Hk. apply Hne.
  rewrite (mark_at_key _ _ _ _ _ _ _ Hout H1) in Hk.
  rewrite (mark_at_key _ _ _ _ _ _ _ Hout H2) in Hk.
  apply string_app_inj_r in Hk. by apply (inj pretty) in Hk.
Qed.

Lemma Points_keys_distinct_in_series_witness :
  ∃ out pt1 pt2,
    Points.Points no_numeric_strings plain_paths
      (sample_points false VUndef 0 ["y0"; "y1"] stacking_rows)
    = Points.Ok out
    ∧ mark_at out 1 0 = Some (Some pt1)
    ∧ mark_at out 1 1 = Some (Some pt2)
    ∧ Points.pt_key pt1 ≠ Points.pt_key pt2.
Proof.
  eexists _, _, _. split; [reflexivity|].
  split; [reflexivity|]. split; [reflexivity|].
  eapply (Points_keys_distinct_in_series no_numeric_strings plain_paths
            (sample_points false VUndef 0 ["y0"; "y1"] stacking_rows)
            _ 1 0 1); [reflexivity | reflexivity | reflexivity | discriminate].
Defined.

(** Across series the keys need not differ: row 1 of series 11 and row 11
    of series 1 are both keyed "111". *)
Example Points_keys_collide_across_series :
  pretty 1%nat +:+ pretty 11%nat = pretty 11%nat +:+ pretty 1%nat.
Proof. reflexivity. Qed.

(** X20: stacking replaces the domain of the y scale by two bounds, the
    first bound of the passed scale and the new upper bound, and keeps the
    scale otherwise; a truthy yStackedMax is the upper bound whatever the
    data hold, and a falsy one (0, NaN, null) counts as none. *)
Theorem Points_stacked_domain_override (StringToNumber : string → num)
    (p : Points.IPointsProps) :
  truthy (Points.isStacked p) = true →
  Points.interpolate (Points.rescaled StringToNumber p)
  = Points.interpolate (Points.yScale p)
  ∧ length (Points.domain (Points.rescaled StringToNumber p)) = 2%nat
  ∧ Points.domain (Points.rescaled StringToNumber p) !! 0%nat
    = Some (default VUndef (Points.domain (Points.yScale p) !! 0%nat))
  ∧ (truthy (Points.yStackedMax p) = true →
     upper_bound StringToNumber p = Some (Points.yStackedMax p))
  ∧ (truthy (Points.yStackedMax p) = false →
     upper_bound StringToNumber p
     = upper_bound StringToNumber (with_yStackedMax VUndef p)).
Proof.
  intros Hs. unfold upper_bound, Points.rescaled.
  cbn [Points.isStacked with_yStackedMax]. rewrite Hs.
  cbn [Points.set_domain Points.domain Points.interpolate lookup list_lookup
       length].
  split; [done|]. split; [done|]. split; [done|].
  unfold js_or. split.
  - intros ->. done.
  - intros ->. done.
Qed.

Lemma Points_stacked_domain_override_witness :
  upper_bound no_numeric_strings
    (sample_points true (VNum (Fin 7)) 0 ["y0"; "y1"] rows_with_bad_value)
  = Some (VNum (Fin 7))
  ∧ upper_bound no_numeric_strings
      (sample_points true (VNum (Fin 0)) 0 ["y0"; "y1"] stacking_rows)
    = Some (VNum (Fin 4)).
Proof.
  split.
  - destruct (Points_stacked_domain_override no_numeric_strings
                (sample_points true (VNum (Fin 7)) 0 ["y0"; "y1"]
                   rows_with_bad_value) eq_refl) as (_ & _ & _ & H & _).
    apply H. reflexivity.
  - destruct (Points_stacked_domain_override no_numeric_strings
                (sample_points true (VNum (Fin 0)) 0 ["y0"; "y1"]
                   stacking_rows) eq_refl) as (_ & _ & _ & _ & H).
    rewrite H; reflexivity.
Defined.
